(** * fnspath: filesystem helpers of go-x-pkg/fnspath, embedded in Rocq

    The Go package is a thin layer over the operating system: every
    function is a short sequence of calls to [os], [io], [ioutil], [fmt],
    [time] and [bufpool], glued together by error checks, loops and
    recursion.  The embedding keeps that shape.  A Go function becomes a
    program in a free monad [Prog] whose operations are exactly the
    external calls the source makes; running a program against a handler
    (any behaviour of the operating system over any world type) yields the
    returned value, the final world and the ordered trace of calls made
    with their answers.  Theorems quantify over every handler, so they hold
    for whatever the file system answers; concrete handlers are used for
    evaluations only. *)

From Stdlib Require Import String Ascii List ZArith Lia Bool Arith.
From Stdlib.Strings Require Byte.
From ExtLib Require Import Structures.Monad.
Import ListNotations.
Import MonadNotation.
Local Open Scope string_scope.
Local Open Scope list_scope.
Local Open Scope monad_scope.

(** ** Go values *)

(** [syscall.Errno] values that matter to the package. *)
Inductive Errno : Type :=
| ENOENT | ENOTDIR | EEXIST | EACCES | EBUSY | EIO | EINVAL.

(** Non-nil values of the Go interface [error]. *)
Inductive err : Type :=
| PathError (Op Path : string) (Err : Errno)      (* *os.PathError *)
| LinkError (Op Old New : string) (Err : Errno)   (* *os.LinkError *)
| ErrorString (s : string).                       (* errors.New(s), e.g. io.EOF *)

(** The Go type [error]: [None] is [nil]. *)
Abbreviation error := (option err).
Abbreviation nil_error := (@None err).

(** A Go result pair [(T, error)] of which exactly one side is meaningful. *)
Inductive result (T : Type) : Type :=
| Ok (v : T)
| Err (e : err).
Arguments Ok {T} v.
Arguments Err {T} e.

(** [os.FileMode] is a [uint32]. *)
Definition FileMode : Type := Z.

(** What the package reads from an [os.FileInfo]. *)
Record FileInfo : Type := mkFileInfo {
  Name : string;
  Size : Z;          (* int64 *)
  Mode : FileMode;
  IsDir : bool
}.

(** An open [*os.File]; a nil pointer is [None] of [option File]. *)
Definition File : Type := string.

Definition Time : Type := Z.
Definition Duration : Type := Z.

Definition bytes : Type := list Byte.byte.

(** A [*bufpool.Buf]: the bytes it currently holds. *)
Definition Buf : Type := bytes.

(** [os.IsNotExist]: the underlying error is ENOENT; [nil] is not. *)
Definition os_IsNotExist (e : error) : bool :=
  match e with
  | Some (PathError _ _ ENOENT) => true
  | Some (LinkError _ _ _ ENOENT) => true
  | _ => false
  end.

(** ** External calls *)

(** One constructor per library call the package makes, indexed by the
    type of its answer. *)
Inductive Sys : Type -> Type :=
| os_Stat (name : string) : Sys (result FileInfo)
| os_Lstat (name : string) : Sys (result FileInfo)
| os_Mkdir (name : string) (perm : FileMode) : Sys error
| os_MkdirAll (path : string) (perm : FileMode) : Sys error
| os_Chmod (name : string) (mode : FileMode) : Sys error
| os_RemoveAll (path : string) : Sys error
| os_Rename (oldpath newpath : string) : Sys error
| os_Open (name : string) : Sys (result File)
| os_Create (name : string) : Sys (result File)
| File_Close (f : File) : Sys error
| File_Readdir (f : option File) (n : Z) : Sys (list FileInfo * error)
| io_Copy (dst src : File) : Sys (Z * error)
| ioutil_ReadFile (filename : string) : Sys (bytes * error)
| fmt_Println (e : error) : Sys unit
| time_Now : Sys Time
| time_Since (t : Time) : Sys Duration
| bufpool_NewBuf : Sys Buf
| Buf_Release (b : option Buf) : Sys unit.

(** ** Programs *)

(** A program either returns, performs a call and continues with its
    answer, or has no result ([Spin], used where a recursion of the
    source has no bound of its own, and for a call the libraries leave
    undefined). *)
Inductive Prog (A : Type) : Type :=
| Ret (a : A)
| Vis (X : Type) (c : Sys X) (k : X -> Prog A)
| Spin.
Arguments Ret {A} a.
Arguments Vis {A X} c k.
Arguments Spin {A}.

Fixpoint bind_prog {A B : Type} (p : Prog A) (f : A -> Prog B) : Prog B :=
  match p with
  | Ret a => f a
  | Vis c k => Vis c (fun x => bind_prog (k x) f)
  | Spin => Spin
  end.

#[export] Instance Monad_Prog : Monad Prog :=
  {| ret := @Ret; bind := @bind_prog |}.

(** Perform one call and return its answer. *)
Definition call {X : Type} (c : Sys X) : Prog X := Vis c Ret.

(** [defer cleanup] around [body]: the cleanup runs when the body has
    produced the function's return value. *)
Definition defer {A X : Type} (cleanup : Sys X) (body : Prog A) : Prog A :=
  a <- body ;; _ <- call cleanup ;; ret a.

(** ** Running a program *)

(** A call together with the answer it got. *)
Inductive Event : Type :=
| Ev (X : Type) (c : Sys X) (x : X).
Arguments Ev {X} c x.

Definition Trace : Type := list Event.

(** The operating system: how each call answers and changes the world. *)
Definition Handler (W : Type) : Type := forall X : Type, Sys X -> W -> X * W.

Fixpoint exec {W A : Type} (h : Handler W) (p : Prog A) (w : W)
  : option (A * W * Trace) :=
  match p with
  | Ret a => Some (a, w, [])
  | Vis c k =>
      let (x, w1) := h _ c w in
      match exec h (k x) w1 with
      | Some (a, w2, tr) => Some (a, w2, Ev c x :: tr)
      | None => None
      end
  | Spin => None
  end.

(** ** fns.go *)

(** The counters are Go [int]s that only count down from 20 to 0; they are
    the recursion measure of the loops. *)
Definition RemoveAttempts : nat := 20.
Definition MvAttempts : nat := 20.

(** The loop of [Remove]: [attempt] is the remaining budget and [e] the
    named result, which holds the error of the latest attempt. *)
Fixpoint Remove_loop (attempt : nat) (path : string) (e : error) : Prog error :=
  match attempt with
  | O => ret e
  | S attempt' =>
      e <- call (os_RemoveAll path) ;;
      match e with
      | Some _ => Remove_loop attempt' path e
      | None => ret nil_error
      end
  end.

Definition Remove (path : string) : Prog error :=
  Remove_loop RemoveAttempts path nil_error.

Fixpoint MV_loop (attempt : nat) (oldpath newpath : string) (e : error)
  : Prog error :=
  match attempt with
  | O => ret e
  | S attempt' =>
      e <- call (os_Rename oldpath newpath) ;;
      match e with
      | Some _ => MV_loop attempt' oldpath newpath e
      | None => ret nil_error
      end
  end.

Definition MV (oldpath newpath : string) : Prog error :=
  MV_loop MvAttempts oldpath newpath nil_error.

(** [IsExists]: a stat whose "not exist" error is turned into [false]. *)
Definition IsExists (path : string) : Prog (bool * error) :=
  r <- call (os_Stat path) ;;
  match r with
  | Err e =>
      if os_IsNotExist (Some e) then ret (false, nil_error)
      else ret (true, Some e)
  | Ok _ => ret (true, nil_error)
  end.

(** [os.IsPathSeparator] on Unix. *)
Definition os_IsPathSeparator (c : ascii) : bool := Ascii.eqb c "/"%char.

(** [path[i]] tested for being a separator, for [i] below [len(path)]. *)
Definition sep_at (path : string) (i : nat) : bool :=
  match String.get i path with
  | Some c => os_IsPathSeparator c
  | None => false
  end.

(** [for i > 0 && os.IsPathSeparator(path[i-1]) { i-- }] *)
Fixpoint skip_trailing (path : string) (i : nat) : nat :=
  match i with
  | O => O
  | S i' => if sep_at path i' then skip_trailing path i' else i
  end.

(** [for j > 0 && !os.IsPathSeparator(path[j-1]) { j-- }] *)
Fixpoint scan_element (path : string) (j : nat) : nat :=
  match j with
  | O => O
  | S j' => if negb (sep_at path j') then scan_element path j' else j
  end.

(** [MkdirAll] recurses on a strict prefix of [path]; [fuel] bounds the
    depth of that recursion and [MkdirAll] below starts it high enough. *)
Fixpoint MkdirAll_rec (fuel : nat) (path : string) (perm : FileMode)
  : Prog error :=
  match fuel with
  | O => Spin
  | S fuel' =>
      (* Fast path *)
      r <- call (os_Stat path) ;;
      match r with
      | Ok dir =>
          if IsDir dir then ret nil_error
          else ret (Some (PathError "mkdir" path ENOTDIR))
      | Err _ =>
          (* Slow path *)
          let i := skip_trailing path (String.length path) in
          let j := scan_element path i in
          err <- (if (1 <? j)%nat
                  then MkdirAll_rec fuel' (substring 0 (j - 1) path) perm
                  else ret nil_error) ;;
          match err with
          | Some _ => ret err
          | None =>
              err <- call (os_Mkdir path perm) ;;
              match err with
              | Some _ =>
                  r1 <- call (os_Lstat path) ;;
                  match r1 with
                  | Ok dir => if IsDir dir then ret nil_error else ret err
                  | Err _ => ret err
                  end
              | None =>
                  err <- call (os_Chmod path perm) ;;
                  match err with
                  | Some _ => ret err
                  | None => ret nil_error
                  end
              end
          end
      end
  end.

Definition MkdirAll (path : string) (perm : FileMode) : Prog error :=
  MkdirAll_rec (S (String.length path)) path perm.

Definition Ensure (path : string) (perm : FileMode) : Prog error :=
  '(ok, e) <- IsExists path ;;
  match e with
  | Some _ => ret e
  | None =>
      if negb ok then
        e <- MkdirAll path perm ;;
        match e with
        | Some _ => ret e
        | None => ret nil_error
        end
      else ret nil_error
  end.

Record pathAndMode : Type := mkPathAndMode {
  p : string;
  mode : FileMode
}.

Definition PathAndModes : Type := list pathAndMode.

Definition NewPathAndModes : PathAndModes := [].

Definition Append (pam : PathAndModes) (path : string) (m : FileMode)
  : PathAndModes :=
  pam ++ [mkPathAndMode path m].

(** The error half of a [(T, error)] answer. *)
Definition error_of {T : Type} (r : result T) : error :=
  match r with
  | Ok _ => nil_error
  | Err e => Some e
  end.

Fixpoint EnsureMany (paths : PathAndModes) : Prog error :=
  match paths with
  | [] => ret nil_error
  | r :: rest =>
      s <- call (os_Stat (p r)) ;;
      let e := error_of s in
      if os_IsNotExist e then
        e <- call (os_MkdirAll (p r) (mode r)) ;;
        match e with
        | Some _ => ret e
        | None => EnsureMany rest
        end
      else
        match e with
        | Some _ => ret e
        | None => EnsureMany rest
        end
  end.

(** The loop of [AbsentMany]; [err] is the named result. *)
Fixpoint AbsentMany_loop (paths : list string) (err : error) : Prog error :=
  match paths with
  | [] => ret err
  | path :: rest =>
      e <- Remove path ;;
      match e with
      | Some _ => AbsentMany_loop rest e
      | None => AbsentMany_loop rest err
      end
  end.

Definition AbsentMany (paths : list string) : Prog error :=
  AbsentMany_loop paths nil_error.

Section WithFilepath.

(** [filepath.Dir] of the Go standard library. *)
Variable filepath_Dir : string -> string.

Definition Rename (oldpath newpath : string) (m : FileMode) : Prog error :=
  e <- Ensure (filepath_Dir newpath) m ;;
  match e with
  | Some _ => ret nil_error
  | None => call (os_Rename oldpath newpath)
  end.

End WithFilepath.

Definition CopyFile (source dest : string) (m : FileMode) : Prog error :=
  r <- call (os_Open source) ;;
  match r with
  | Err e => ret (Some e)
  | Ok sourcefile =>
      defer (File_Close sourcefile)
        (r <- call (os_Create dest) ;;
         match r with
         | Err e => ret (Some e)
         | Ok destfile =>
             defer (File_Close destfile)
               ('(_, err) <- call (io_Copy destfile sourcefile) ;;
                match err with
                | None =>
                    if negb (m =? 0)%Z then
                      (* custom mode *)
                      err <- call (os_Chmod dest m) ;;
                      match err with
                      | Some _ => ret err
                      | None => ret nil_error
                      end
                    else
                      (* copy mode from source file *)
                      r <- call (os_Stat source) ;;
                      match r with
                      | Err e => ret (Some e)
                      | Ok sourceinfo =>
                          err <- call (os_Chmod dest (Mode sourceinfo)) ;;
                          match err with
                          | Some _ => ret err
                          | None => ret nil_error
                          end
                      end
                | Some _ => ret nil_error
                end)
         end)
  end.

(** [if err != nil { fmt.Println(err) }] *)
Definition report (err : error) : Prog unit :=
  match err with
  | Some _ => call (fmt_Println err)
  | None => ret tt
  end.

(** The [for _, obj := range objects] loop of [PathCopyDir]; [self] is the
    function itself, for the sub-directories, and [err] the named result. *)
Fixpoint PathCopyDir_loop (self : string -> string -> Prog error)
  (source dest : string) (objects : list FileInfo) (err : error)
  : Prog error :=
  match objects with
  | [] => ret err
  | obj :: rest =>
      let sourcefilepointer := (source ++ "/" ++ Name obj)%string in
      let destinationfilepointer := (dest ++ "/" ++ Name obj)%string in
      err <- (if IsDir obj
              then self sourcefilepointer destinationfilepointer
              else CopyFile sourcefilepointer destinationfilepointer 0%Z) ;;
      _ <- report err ;;
      PathCopyDir_loop self source dest rest err
  end.

(** The nil [*os.File] that [os.Open] returns next to an error. *)
Definition file_of (r : result File) : option File :=
  match r with
  | Ok f => Some f
  | Err _ => None
  end.

(** [PathCopyDir] recurses into the sub-directories the file system lists;
    [fuel] bounds the depth of the walk. *)
Fixpoint PathCopyDir (fuel : nat) (source dest : string) : Prog error :=
  match fuel with
  | O => Spin
  | S fuel' =>
      r <- call (os_Stat source) ;;
      match r with
      | Err e => ret (Some e)
      | Ok sourceinfo =>
          err <- call (os_MkdirAll dest (Mode sourceinfo)) ;;
          match err with
          | Some _ => ret err
          | None =>
              d <- call (os_Open source) ;;
              let directory := file_of d in
              '(objects, err) <- call (File_Readdir directory (-1)%Z) ;;
              PathCopyDir_loop (PathCopyDir fuel') source dest objects err
          end
      end
  end.

(** [io.EOF], and the test [e == io.EOF]. *)
Definition io_EOF : err := ErrorString "EOF".

Definition is_EOF (e : error) : bool :=
  match e with
  | Some (ErrorString s) => String.eqb s "EOF"
  | _ => false
  end.

Definition IsDirEmpty (name : string) : Prog (bool * error) :=
  r <- call (os_Open name) ;;
  match r with
  | Err e => ret (false, Some e)
  | Ok f =>
      defer (File_Close f)
        ((* read in ONLY one file *)
         '(_, e) <- call (File_Readdir (Some f) 1%Z) ;;
         if is_EOF e then ret (true, nil_error) else ret (false, e))
  end.

Section WithAbs.

(** [filepath.Abs] of the Go standard library, as a function of the path:
    the working directory it consults does not change during a call of
    [Absolutize]. *)
Variable filepath_Abs : string -> result string.

(** The strings the [*string] arguments point to: a store indexed by
    address.  Two entries of the slice may hold the same address. *)
Definition Heap : Type := nat -> string.

Definition store (heap : Heap) (ptr : nat) (v : string) : Heap :=
  fun q => if Nat.eqb q ptr then v else heap q.

Fixpoint Absolutize (paths : list nat) (heap : Heap) : error * Heap :=
  match paths with
  | [] => (nil_error, heap)
  | ptr :: rest =>
      match filepath_Abs (heap ptr) with
      | Err e => (Some e, heap)
      | Ok v => Absolutize rest (store heap ptr v)
      end
  end.

End WithAbs.

Section WithFilepathDir.

Variable filepath_Dir : string -> string.

(** The reader is named by a handle, like the open files [io.Copy] works
    on in [CopyFile]. *)
Definition ToFile (path : string) (m : FileMode) (reader : File) : Prog error :=
  let dir := filepath_Dir path in
  e <- Ensure dir m ;;
  match e with
  | Some _ => ret e
  | None =>
      r <- call (os_Create path) ;;
      match r with
      | Err e => ret (Some e)
      | Ok f =>
          defer (File_Close f)
            ('(_, e) <- call (io_Copy f reader) ;;
             match e with
             | Some _ => ret e
             | None => ret nil_error
             end)
      end
  end.

Definition CopyFileEnsureDir (src dst : string) (fileMode dirMode : FileMode)
  : Prog error :=
  let dirPath := filepath_Dir dst in
  e <- Ensure dirPath dirMode ;;
  match e with
  | Some _ => ret e
  | None =>
      e <- CopyFile src dst fileMode ;;
      match e with
      | Some _ => ret e
      | None => ret nil_error
      end
  end.

End WithFilepathDir.

(** ** md5.go *)

Record MD5 : Type := mkMD5 {
  Latency : Duration;
  Sum : bytes;        (* [md5.Size]byte *)
  Sz : Z;             (* uint64 *)
  B : option Buf      (* *bufpool.Buf *)
}.

Definition md5_Size : nat := 16.

(** The zero value of the struct. *)
Definition MD5_zero : MD5 :=
  mkMD5 0%Z (repeat Byte.x00 md5_Size) 0%Z None.

(** Modelled from the spec: [bufpool.Buf] is an external package.  The
    spec says a reused buffer "is reset (length zeroed, capacity
    retained)" and that the raw bytes are then stored into it. *)
Definition Buf_Reset (b : Buf) : Buf := [].
Definition Buf_Write (b : Buf) (data : bytes) : Buf := b ++ data.

(** [len] of the record's buffer; a record without buffer holds no bytes. *)
Definition Buf_Len (b : option Buf) : Z :=
  match b with
  | Some b => Z.of_nat (length b)
  | None => 0%Z
  end.

(** [uint64(x)] for an [int64] [x]. *)
Definition uint64 (x : Z) : Z := (x mod 2 ^ 64)%Z.

(** Modelled from the spec: [bufpool.Buf] is an external package, and the
    spec leaves a release by a record that owns no buffer undefined.  The
    call [m5.B.Release()] on the nil receiver is therefore given no
    result: nothing is promised about it. *)
Definition Release (m5 : MD5) : Prog MD5 :=
  match B m5 with
  | Some b =>
      _ <- call (Buf_Release (Some b)) ;;
      ret (mkMD5 (Latency m5) (Sum m5) (Sz m5) None)
  | None => Spin
  end.

Section WithDigest.

(** [md5.Sum] of the Go standard library. *)
Variable md5_Sum : bytes -> bytes.

(** The body of [Do] up to its return; the receiver is threaded. *)
Definition Do_body (m5 : MD5) (path : string) : Prog (error * MD5) :=
  r <- call (os_Stat path) ;;
  match r with
  | Err e => ret (Some e, m5)
  | Ok fi =>
      let m5 := mkMD5 (Latency m5) (Sum m5) (uint64 (Size fi)) (B m5) in
      '(data, e) <- call (ioutil_ReadFile path) ;;
      match e with
      | Some _ => ret (nil_error, m5)
      | None =>
          let m5 := mkMD5 (Latency m5) (md5_Sum data) (Sz m5) (B m5) in
          b <- match B m5 with
               | Some b => ret b
               | None => call bufpool_NewBuf
               end ;;
          let b := Buf_Reset b in
          let b := Buf_Write b data in
          ret (nil_error, mkMD5 (Latency m5) (Sum m5) (Sz m5) (Some b))
      end
  end.

(** [Do]: the deferred function stores the latency on every return. *)
Definition Do (m5 : MD5) (path : string) : Prog (error * MD5) :=
  start <- call time_Now ;;
  '(e, m5) <- Do_body m5 path ;;
  d <- call (time_Since start) ;;
  ret (e, mkMD5 d (Sum m5) (Sz m5) (B m5)).

End WithDigest.

(** ** A simulated file system

    A concrete handler, used to evaluate the programs on explicit inputs:
    a table of paths with fault injection.  A fault makes the named
    operation on the named path fail a given number of times. *)
Module SimFS.

Inductive Node : Type :=
| DirNode (m : FileMode)
| FileNode (m : FileMode) (content : bytes).

Inductive Op : Type :=
| OpStat | OpLstat | OpMkdir | OpMkdirAll | OpChmod | OpRemoveAll
| OpRename | OpOpen | OpCreate | OpReaddir | OpCopy | OpReadFile.

Definition Op_eqb (a b : Op) : bool :=
  match a, b with
  | OpStat, OpStat | OpLstat, OpLstat | OpMkdir, OpMkdir
  | OpMkdirAll, OpMkdirAll | OpChmod, OpChmod | OpRemoveAll, OpRemoveAll
  | OpRename, OpRename | OpOpen, OpOpen | OpCreate, OpCreate
  | OpReaddir, OpReaddir | OpCopy, OpCopy | OpReadFile, OpReadFile => true
  | _, _ => false
  end.

Record Fault : Type := mkFault {
  f_op : Op;
  f_path : string;
  f_times : nat;
  f_errno : Errno
}.

Record World : Type := mkWorld {
  nodes : list (string * Node);
  faults : list Fault;
  clock : Z;
  printed : list error;
  pool : list Buf
}.

Definition with_nodes (w : World) (ns : list (string * Node)) : World :=
  mkWorld ns (faults w) (clock w) (printed w) (pool w).

Fixpoint lookup (ns : list (string * Node)) (path : string) : option Node :=
  match ns with
  | [] => None
  | (q, n) :: rest => if String.eqb q path then Some n else lookup rest path
  end.

Definition remove_path (ns : list (string * Node)) (path : string)
  : list (string * Node) :=
  filter (fun qn => negb (String.eqb (fst qn) path)) ns.

Definition update (ns : list (string * Node)) (path : string) (n : Node)
  : list (string * Node) :=
  match lookup ns path with
  | Some _ =>
      map (fun qn => if String.eqb (fst qn) path then (path, n) else qn) ns
  | None => ns ++ [(path, n)]
  end.

(** The first pending fault for [op] on [path] fires and is used up. *)
Fixpoint fire (fs : list Fault) (op : Op) (path : string)
  : option Errno * list Fault :=
  match fs with
  | [] => (None, [])
  | f :: rest =>
      if Op_eqb (f_op f) op && String.eqb (f_path f) path then
        match f_times f with
        | O => let (r, rest') := fire rest op path in (r, f :: rest')
        | S n => (Some (f_errno f), mkFault op path n (f_errno f) :: rest)
        end
      else let (r, rest') := fire rest op path in (r, f :: rest')
  end.

Definition dirname (path : string) : string :=
  let j := scan_element path (String.length path) in
  substring 0 (j - 1) path.

Definition basename (path : string) : string :=
  let j := scan_element path (String.length path) in
  substring j (String.length path - j) path.

Definition is_dir (ns : list (string * Node)) (path : string) : bool :=
  match lookup ns path with
  | Some (DirNode _) => true
  | _ => false
  end.

(** The working directory [""] always exists. *)
Definition parent_ok (ns : list (string * Node)) (path : string) : bool :=
  String.eqb (dirname path) "" || is_dir ns (dirname path).

Definition info (path : string) (n : Node) : FileInfo :=
  match n with
  | DirNode m => mkFileInfo (basename path) 4096%Z m true
  | FileNode m c => mkFileInfo (basename path) (Z.of_nat (length c)) m false
  end.

Definition stat (op : string) (ns : list (string * Node)) (path : string)
  : result FileInfo :=
  match lookup ns path with
  | Some n => Ok (info path n)
  | None => Err (PathError op path ENOENT)
  end.

Definition under (dir path : string) : bool :=
  String.prefix (dir ++ "/")%string path.

Definition children (ns : list (string * Node)) (dir : string)
  : list FileInfo :=
  map (fun qn => info (fst qn) (snd qn))
    (filter (fun qn => String.eqb (dirname (fst qn)) dir) ns).

(** Every missing ancestor of [path], shortest first, then [path]. *)
Fixpoint mkdir_all (fuel : nat) (ns : list (string * Node)) (path : string)
  (m : FileMode) : list (string * Node) :=
  match fuel with
  | O => ns
  | S fuel' =>
      let ns := if String.eqb (dirname path) "" then ns
                else mkdir_all fuel' ns (dirname path) m in
      match lookup ns path with
      | Some _ => ns
      | None => ns ++ [(path, DirNode m)]
      end
  end.

Definition rename_node (oldpath newpath : string) (qn : string * Node)
  : string * Node :=
  if String.eqb (fst qn) oldpath then (newpath, snd qn)
  else if under oldpath (fst qn) then
    ((newpath ++ substring (String.length oldpath)
                   (String.length (fst qn) - String.length oldpath)
                   (fst qn))%string,
     snd qn)
  else qn.

Definition content_of (ns : list (string * Node)) (path : string) : bytes :=
  match lookup ns path with
  | Some (FileNode _ c) => c
  | _ => []
  end.

Definition set_mode (n : Node) (m : FileMode) : Node :=
  match n with
  | DirNode _ => DirNode m
  | FileNode _ c => FileNode m c
  end.

(** A faulty operation answers with its fault; the world only loses the
    fault. *)
Definition faulty (w : World) (op : Op) (path : string)
  : option Errno * World :=
  let (r, fs) := fire (faults w) op path in
  (r, mkWorld (nodes w) fs (clock w) (printed w) (pool w)).

Definition handler : Handler World :=
  fun X c =>
    match c in Sys X return World -> X * World with
    | os_Stat name => fun w =>
        match faulty w OpStat name with
        | (Some en, w) => (Err (PathError "stat" name en), w)
        | (None, w) => (stat "stat" (nodes w) name, w)
        end
    | os_Lstat name => fun w =>
        match faulty w OpLstat name with
        | (Some en, w) => (Err (PathError "lstat" name en), w)
        | (None, w) => (stat "lstat" (nodes w) name, w)
        end
    | os_Mkdir name perm => fun w =>
        match faulty w OpMkdir name with
        | (Some en, w) => (Some (PathError "mkdir" name en), w)
        | (None, w) =>
            match lookup (nodes w) name with
            | Some _ => (Some (PathError "mkdir" name EEXIST), w)
            | None =>
                if parent_ok (nodes w) name
                then (None, with_nodes w (nodes w ++ [(name, DirNode perm)]))
                else (Some (PathError "mkdir" name ENOENT), w)
            end
        end
    | os_MkdirAll path perm => fun w =>
        match faulty w OpMkdirAll path with
        | (Some en, w) => (Some (PathError "mkdir" path en), w)
        | (None, w) =>
            match lookup (nodes w) path with
            | Some (FileNode _ _) => (Some (PathError "mkdir" path ENOTDIR), w)
            | Some (DirNode _) => (None, w)
            | None =>
                (None, with_nodes w
                         (mkdir_all (S (String.length path)) (nodes w) path perm))
            end
        end
    | os_Chmod name m => fun w =>
        match faulty w OpChmod name with
        | (Some en, w) => (Some (PathError "chmod" name en), w)
        | (None, w) =>
            match lookup (nodes w) name with
            | Some n => (None, with_nodes w (update (nodes w) name (set_mode n m)))
            | None => (Some (PathError "chmod" name ENOENT), w)
            end
        end
    | os_RemoveAll path => fun w =>
        match faulty w OpRemoveAll path with
        | (Some en, w) => (Some (PathError "unlinkat" path en), w)
        | (None, w) =>
            (None, with_nodes w
                     (filter (fun qn => negb (String.eqb (fst qn) path
                                              || under path (fst qn)))
                        (nodes w)))
        end
    | os_Rename oldpath newpath => fun w =>
        match faulty w OpRename oldpath with
        | (Some en, w) => (Some (LinkError "rename" oldpath newpath en), w)
        | (None, w) =>
            match lookup (nodes w) oldpath with
            | Some _ =>
                if parent_ok (nodes w) newpath
                then (None, with_nodes w
                              (map (rename_node oldpath newpath)
                                 (remove_path (nodes w) newpath)))
                else (Some (LinkError "rename" oldpath newpath ENOENT), w)
            | None => (Some (LinkError "rename" oldpath newpath ENOENT), w)
            end
        end
    | os_Open name => fun w =>
        match faulty w OpOpen name with
        | (Some en, w) => (Err (PathError "open" name en), w)
        | (None, w) =>
            match lookup (nodes w) name with
            | Some _ => (Ok name, w)
            | None => (Err (PathError "open" name ENOENT), w)
            end
        end
    | os_Create name => fun w =>
        match faulty w OpCreate name with
        | (Some en, w) => (Err (PathError "open" name en), w)
        | (None, w) =>
            if is_dir (nodes w) name
            then (Err (PathError "open" name EINVAL), w)
            else if parent_ok (nodes w) name
            then (Ok name,
                  with_nodes w (update (nodes w) name (FileNode 438%Z [])))
            else (Err (PathError "open" name ENOENT), w)
        end
    | File_Close f => fun w => (None, w)
    | File_Readdir f n => fun w =>
        match f with
        | None => (([], Some (ErrorString "invalid argument")), w)
        | Some d =>
            match faulty w OpReaddir d with
            | (Some en, w) => (([], Some (PathError "readdirent" d en)), w)
            | (None, w) => ((children (nodes w) d, None), w)
            end
        end
    | io_Copy dst src => fun w =>
        match faulty w OpCopy src with
        | (Some en, w) => ((0%Z, Some (PathError "read" src en)), w)
        | (None, w) =>
            let c := content_of (nodes w) src in
            let m := match lookup (nodes w) dst with
                     | Some (FileNode m _) => m
                     | _ => 438%Z
                     end in
            ((Z.of_nat (length c), None),
             with_nodes w (update (nodes w) dst (FileNode m c)))
        end
    | ioutil_ReadFile filename => fun w =>
        match faulty w OpReadFile filename with
        | (Some en, w) => (([], Some (PathError "read" filename en)), w)
        | (None, w) =>
            match lookup (nodes w) filename with
            | Some (FileNode _ c) => ((c, None), w)
            | Some (DirNode _) =>
                (([], Some (PathError "read" filename EINVAL)), w)
            | None => (([], Some (PathError "open" filename ENOENT)), w)
            end
        end
    | fmt_Println e => fun w =>
        (tt, mkWorld (nodes w) (faults w) (clock w) (printed w ++ [e]) (pool w))
    | time_Now => fun w =>
        (clock w,
         mkWorld (nodes w) (faults w) (clock w + 1)%Z (printed w) (pool w))
    | time_Since t => fun w =>
        ((clock w - t)%Z,
         mkWorld (nodes w) (faults w) (clock w + 1)%Z (printed w) (pool w))
    | bufpool_NewBuf => fun w =>
        match pool w with
        | b :: rest =>
            (b, mkWorld (nodes w) (faults w) (clock w) (printed w) rest)
        | [] => ([], w)
        end
    | Buf_Release b => fun w =>
        match b with
        | Some b =>
            (tt, mkWorld (nodes w) (faults w) (clock w) (printed w)
                   (b :: pool w))
        | None => (tt, w)
        end
    end.

(** A world with the given nodes and faults and nothing else. *)
Definition world (ns : list (string * Node)) (fs : list Fault) : World :=
  mkWorld ns fs 0%Z [] [].

(** What a run returned, with the calls it made. *)
Definition outcome {A : Type} (r : option (A * World * Trace))
  : option (A * Trace) :=
  match r with
  | Some (a, _, tr) => Some (a, tr)
  | None => None
  end.

End SimFS.


(** ** A fixed tree

    A file system that answers the same whatever happened before: the
    directory [src] lists the file [a], which cannot be opened, the
    directory [locked], whose stat is refused, the directory [sub], which
    lists the file [b], and the file [c]. *)
Definition fixed_info (name : string) : FileInfo :=
  if String.eqb name "src" then mkFileInfo "src" 4096%Z 493%Z true
  else if String.eqb name "src/sub" then mkFileInfo "sub" 4096%Z 488%Z true
  else if String.eqb name "src/locked" then mkFileInfo "locked" 4096%Z 448%Z true
  else mkFileInfo (SimFS.basename name) 1%Z 420%Z false.

Definition fixed_listing (dir : File) : list FileInfo :=
  if String.eqb dir "src" then
    [fixed_info "src/a"; fixed_info "src/locked"; fixed_info "src/sub";
     fixed_info "src/c"]
  else if String.eqb dir "src/sub" then [fixed_info "src/sub/b"]
  else [].

Definition fixed_tree : Handler unit :=
  fun X c =>
    match c in Sys X return unit -> X * unit with
    | os_Stat name => fun w =>
        if String.eqb name "src/locked"
        then (Err (PathError "stat" name EACCES), w)
        else (Ok (fixed_info name), w)
    | os_Lstat name => fun w => (Ok (fixed_info name), w)
    | os_Mkdir _ _ => fun w => (nil_error, w)
    | os_MkdirAll _ _ => fun w => (nil_error, w)
    | os_Chmod _ _ => fun w => (nil_error, w)
    | os_RemoveAll _ => fun w => (nil_error, w)
    | os_Rename _ _ => fun w => (nil_error, w)
    | os_Open name => fun w =>
        if String.eqb name "src/a"
        then (Err (PathError "open" name EACCES), w)
        else (Ok name, w)
    | os_Create name => fun w => (Ok name, w)
    | File_Close _ => fun w => (nil_error, w)
    | File_Readdir f _ => fun w =>
        match f with
        | Some dir => ((fixed_listing dir, nil_error), w)
        | None => (([], Some (ErrorString "invalid argument")), w)
        end
    | io_Copy _ _ => fun w => ((1%Z, nil_error), w)
    | ioutil_ReadFile _ => fun w => (([Byte.x61], nil_error), w)
    | fmt_Println _ => fun w => (tt, w)
    | time_Now => fun w => (0%Z, w)
    | time_Since _ => fun w => (1%Z, w)
    | bufpool_NewBuf => fun w => ([], w)
    | Buf_Release _ => fun w => (tt, w)
    end.

(** ** Listings that end

    The simulated file system with the listing of [Readdir(n)] for
    [n > 0] as the standard library gives it: at most [n] entries, and
    [io.EOF] when there is none. *)
Definition listing_handler : Handler SimFS.World :=
  fun X c =>
    match c in Sys X return SimFS.World -> X * SimFS.World with
    | File_Readdir (Some d) n => fun w =>
        if (0 <? n)%Z then
          match SimFS.children (SimFS.nodes w) d with
          | [] => (([], Some io_EOF), w)
          | infos => ((firstn (Z.to_nat n) infos, nil_error), w)
          end
        else SimFS.handler _ (File_Readdir (Some d) n) w
    | c' => SimFS.handler _ c'
    end.

(** ** Sample inputs of [Absolutize] *)

(** A toy [filepath.Abs] for the evaluations: the empty path fails, an
    absolute path is kept, any other is put under [/cwd]. *)
Definition abs_under_cwd (s : string) : result string :=
  match s with
  | EmptyString => Err (ErrorString "getwd")
  | String c _ =>
      if Ascii.eqb c "/"%char then Ok s else Ok ("/cwd/" ++ s)%string
  end.

Definition sample_heap : Heap :=
  fun q =>
    match q with
    | 0 => "a"
    | 1 => ""
    | 2 => "/etc"
    | _ => "z"
    end.

(** * Vocabulary of the properties *)

(** ** Bounded retry *)

(** The common shape of the two retry loops: repeat one call until it
    succeeds or the budget is used up. *)
Fixpoint retry_loop (attempt : nat) (c : Sys error) (e : error) : Prog error :=
  match attempt with
  | O => ret e
  | S attempt' =>
      e <- call c ;;
      match e with
      | Some _ => retry_loop attempt' c e
      | None => ret nil_error
      end
  end.

(** What a retry loop with the given budget may leave behind: the answers
    of its calls, in order, and its result. *)
Definition retry_shape (budget : nat) (answers : list error) (r : error)
  : Prop :=
  length answers <= budget /\
  ((exists fails, answers = map Some fails ++ [None] /\ r = None) \/
   (exists fails e, answers = map Some (fails ++ [e]) /\
                    length answers = budget /\ r = Some e)).

(** ** Which calls a program can make *)

(** A property of calls, whatever their answer type. *)
Definition CallPred : Type := forall X : Type, Sys X -> bool.

Definition on_call (P : CallPred) (ev : Event) : bool :=
  match ev with
  | Ev c _ => P _ c
  end.

(** Every call the program can ever make satisfies [P]. *)
Inductive only (P : CallPred) {A : Type} : Prog A -> Prop :=
| only_Ret (a : A) : only P (Ret a)
| only_Vis (X : Type) (c : Sys X) (k : X -> Prog A) :
    P X c = true -> (forall x, only P (k x)) -> only P (Vis c k)
| only_Spin : only P Spin.

(** The calls of the directory-ensure path: stat, lstat, mkdir, chmod. *)
Definition ensure_call : CallPred :=
  fun X c =>
    match c with
    | os_Stat _ | os_Lstat _ | os_Mkdir _ _ | os_Chmod _ _ => true
    | _ => false
    end.

Definition is_Rename : CallPred :=
  fun X c =>
    match c with
    | os_Rename _ _ => true
    | _ => false
    end.

(** The calls of [EnsureMany]: the plain stat and the plain recursive
    creation of the standard library. *)
Definition plain_call : CallPred :=
  fun X c =>
    match c with
    | os_Stat _ | os_MkdirAll _ _ => true
    | _ => false
    end.

(** ** Batch removal *)

(** A run of [Remove path]: its result and its calls. *)
Definition Remove_run (path : string) (run : error * Trace) : Prop :=
  exists answers,
    snd run = map (Ev (os_RemoveAll path)) answers /\
    retry_shape 20 answers (fst run).

(** The error [AbsentMany] ends with: the latest non-nil one. *)
Definition last_seen (err : error) (results : list error) : error :=
  fold_left (fun acc e => match e with Some _ => e | None => acc end)
    results err.

(** The path of a stat event. *)
Definition stat_path (ev : Event) : option string :=
  match ev with
  | Ev (os_Stat name) _ => Some name
  | _ => None
  end.

(** ** The batch ensure, in the words of the specification *)

Section BatchSpec.

Context {W : Type} (h : Handler W).

(** One pair of the batch, as the specification words it: a plain
    existence stat; an absent path is created with the plain recursive
    creation; any other stat error is the pair's error. *)
Definition ensure_pair_spec (r : pathAndMode) (w : W) : error * W * Trace :=
  let (s, w1) := h _ (os_Stat (p r)) w in
  match s with
  | Ok _ => (nil_error, w1, [Ev (os_Stat (p r)) s])
  | Err e =>
      if os_IsNotExist (Some e) then
        let (e', w2) := h _ (os_MkdirAll (p r) (mode r)) w1 in
        (e', w2, [Ev (os_Stat (p r)) s; Ev (os_MkdirAll (p r) (mode r)) e'])
      else (Some e, w1, [Ev (os_Stat (p r)) s])
  end.

(** The batch, as the specification words it: the pairs in order; the
    first failing pair ends the batch with its error. *)
Fixpoint EnsureMany_spec (paths : PathAndModes) (w : W) : error * W * Trace :=
  match paths with
  | [] => (nil_error, w, [])
  | r :: rest =>
      match ensure_pair_spec r w with
      | (Some e, w1, tr) => (Some e, w1, tr)
      | (None, w1, tr) =>
          let '(e, w2, tr') := EnsureMany_spec rest w1 in
          (e, w2, tr ++ tr')
      end
  end.

End BatchSpec.

(** ** Recursive copy *)

(** The first call made for an entry of the listing: the stat that opens
    the recursive copy of a sub-directory, or the open that starts the
    copy of a file. *)
Definition starts_entry (source : string) (obj : FileInfo) (seg : Trace) : Prop :=
  if IsDir obj
  then exists x rest, seg = Ev (os_Stat (source ++ "/" ++ Name obj)%string) x :: rest
  else exists x rest, seg = Ev (os_Open (source ++ "/" ++ Name obj)%string) x :: rest.

(** ** Directory ensure *)

(** The parent [MkdirAll] recurses into: [path[0:j-1]] when [j > 1]. *)
Definition MkdirAll_parent (path : string) : option string :=
  let i := skip_trailing path (String.length path) in
  let j := scan_element path i in
  if (1 <? j)%nat then Some (substring 0 (j - 1) path) else None.

(** A call of the ensure path that stays within [path]: a stat or lstat of
    a prefix of it, or a mkdir or chmod of a prefix with mode [perm]. *)
Definition within_call (path : string) (perm : FileMode) : CallPred :=
  fun X c =>
    match c with
    | os_Stat q | os_Lstat q => String.prefix q path
    | os_Mkdir q m | os_Chmod q m => String.prefix q path && (m =? perm)%Z
    | _ => false
    end.

Definition within (path : string) (perm : FileMode) (ev : Event) : bool :=
  on_call (within_call path perm) ev.

(** The call that lets [MkdirAll] answer [nil]: the file system said
    [path] is a directory, or took the mode for the directory just made. *)
Definition confirms (path : string) (perm : FileMode) (ev : Event) : Prop :=
  (exists dir, IsDir dir = true /\ ev = Ev (os_Stat path) (Ok dir)) \/
  (exists dir, IsDir dir = true /\ ev = Ev (os_Lstat path) (Ok dir)) \/
  ev = Ev (os_Chmod path perm) nil_error.

(** ** Open handles *)

(** The files a trace leaves open, last opened first, starting from the
    files [opened] before it: [os.Open] and [os.Create] that succeed hand
    out a file, [Close] must be of the file opened last.  [None] when a
    [Close] is of anything else. *)
Fixpoint handles (tr : Trace) (opened : list File) : option (list File) :=
  match tr with
  | [] => Some opened
  | Ev c x :: rest =>
      match c in Sys X return X -> option (list File) with
      | os_Open _ | os_Create _ =>
          fun r =>
            match r with
            | Ok f => handles rest (f :: opened)
            | Err _ => handles rest opened
            end
      | File_Close f =>
          fun _ =>
            match opened with
            | g :: opened' =>
                if String.eqb f g then handles rest opened' else None
            | [] => None
            end
      | _ => fun _ => handles rest opened
      end x
  end.

(** The directories a trace lists, in the order they were listed. *)
Definition listed_dir (ev : Event) : list File :=
  match ev with
  | Ev (File_Readdir (Some f) _) _ => [f]
  | _ => []
  end.

Definition readdir_handles (tr : Trace) : list File :=
  flat_map listed_dir tr.

(** ** Batch ensure *)

(** The paths a trace stats, in order. *)
Definition stat_paths (tr : Trace) : list string :=
  flat_map (fun ev => match stat_path ev with
                      | Some q => [q]
                      | None => []
                      end) tr.

(** ** Recursive copy, one entry *)

(** The copy of one listed entry: the body of the loop of [PathCopyDir]
    up to the report. *)
Definition copy_entry (self : string -> string -> Prog error)
  (source dest : string) (obj : FileInfo) : Prog error :=
  if IsDir obj
  then self (source ++ "/" ++ Name obj)%string (dest ++ "/" ++ Name obj)%string
  else CopyFile (source ++ "/" ++ Name obj)%string
         (dest ++ "/" ++ Name obj)%string 0%Z.

(** ** Content identity *)

Definition is_NewBuf : CallPred :=
  fun X c =>
    match c with
    | bufpool_NewBuf => true
    | _ => false
    end.

(** ** Mode of created directories *)

(** A mkdir that succeeded, and a chmod, with path and mode. *)
Definition as_mkdir_ok (ev : Event) : option (string * FileMode) :=
  match ev with
  | Ev c x =>
      match c in Sys X return X -> option (string * FileMode) with
      | os_Mkdir q m =>
          fun r => match r with
                   | None => Some (q, m)
                   | Some _ => None
                   end
      | _ => fun _ => None
      end x
  end.

Definition as_chmod (ev : Event) : option (string * FileMode) :=
  match ev with
  | Ev (os_Chmod q m) _ => Some (q, m)
  | _ => None
  end.

(** Every successful mkdir is followed at once by the chmod of the same
    path to the same mode, and there is no other chmod. *)
Fixpoint chmod_follows_mkdir (tr : Trace) : bool :=
  match tr with
  | [] => true
  | ev :: rest =>
      match as_mkdir_ok ev with
      | Some (q, m) =>
          match rest with
          | ev' :: rest' =>
              match as_chmod ev' with
              | Some (q', m') =>
                  String.eqb q q' && (m =? m')%Z && chmod_follows_mkdir rest'
              | None => false
              end
          | [] => false
          end
      | None =>
          match as_chmod ev with
          | Some _ => false
          | None => chmod_follows_mkdir rest
          end
      end
  end.

(** * Properties *)

(** ** Running sequences of calls *)

Section Exec.

Context {W : Type} (h : Handler W).

Lemma exec_bind {A B : Type} (m : Prog A) (f : A -> Prog B) (w : W) :
  exec h (bind m f) w =
  match exec h m w with
  | Some (a, w1, tr1) =>
      match exec h (f a) w1 with
      | Some (b, w2, tr2) => Some (b, w2, tr1 ++ tr2)
      | None => None
      end
  | None => None
  end.
Proof.
  revert w. induction m as [a | X c k IH | ]; intros w; simpl.
  - destruct (exec h (f a) w) as [[[b w2] tr2] | ]; reflexivity.
  - destruct (h X c w) as [x w1]. change (bind_prog (k x) f) with (bind (k x) f).
    rewrite IH. destruct (exec h (k x) w1) as [[[a w2] tr1] | ]; [ | reflexivity].
    destruct (exec h (f a) w2) as [[[b w3] tr2] | ]; reflexivity.
  - reflexivity.
Qed.

Lemma exec_call {X : Type} (c : Sys X) (w : W) :
  exec h (call c) w = Some (fst (h X c w), snd (h X c w), [Ev c (fst (h X c w))]).
Proof. simpl. destruct (h X c w); reflexivity. Qed.

Lemma exec_ret {A : Type} (a : A) (w : W) :
  exec h (ret a) w = Some (a, w, []).
Proof. reflexivity. Qed.

End Exec.

(** ** Bounded retry *)

Lemma last_nonempty {A : Type} (a b : A) (l : list A) (d1 d2 : A) :
  last (a :: l) d1 = last (b :: a :: l) d2.
Proof.
  change (last (b :: a :: l) d2) with (last (a :: l) d2).
  revert a. induction l as [ | c l IH]; intros a; [reflexivity | ].
  change (last (c :: l) d1 = last (c :: l) d2). apply IH.
Qed.

Section Retry.

Context {W : Type} (h : Handler W).

Lemma exec_Remove_loop (attempt : nat) (path : string) (e : error) (w : W) :
  exec h (Remove_loop attempt path e) w =
  exec h (retry_loop attempt (os_RemoveAll path) e) w.
Proof.
  revert e w. induction attempt as [ | n IH]; intros e w; simpl; [reflexivity | ].
  destruct (h _ (os_RemoveAll path) w) as [[x | ] w1]; simpl; [ | reflexivity].
  rewrite IH. reflexivity.
Qed.

Lemma exec_MV_loop (attempt : nat) (oldpath newpath : string) (e : error)
  (w : W) :
  exec h (MV_loop attempt oldpath newpath e) w =
  exec h (retry_loop attempt (os_Rename oldpath newpath) e) w.
Proof.
  revert e w. induction attempt as [ | n IH]; intros e w; simpl; [reflexivity | ].
  destruct (h _ (os_Rename oldpath newpath) w) as [[x | ] w1]; simpl;
    [ | reflexivity].
  rewrite IH. reflexivity.
Qed.

(** A retry loop always returns.  Its calls are all the one call; they
    are failures except possibly the last; a success ends the loop with
    [nil]; otherwise the whole budget is spent and the result is the
    error of the last call (the incoming [e0] when the budget is 0). *)
Lemma retry_loop_run (c : Sys error) (attempt : nat) (e0 : error) (w : W) :
  exists r w' answers,
    exec h (retry_loop attempt c e0) w = Some (r, w', map (Ev c) answers) /\
    length answers <= attempt /\
    ((exists fails, answers = map Some fails ++ [None] /\ r = None) \/
     (exists fails, answers = map Some fails /\ length answers = attempt /\
                    r = last answers e0)).
Proof.
  revert e0 w. induction attempt as [ | n IH]; intros e0 w.
  - exists e0, w, []. simpl. split; [reflexivity | ]. split; [lia | ].
    right. exists []. auto.
  - simpl. destruct (h _ c w) as [[x | ] w1]; simpl.
    + destruct (IH (Some x) w1) as (r & w' & answers & Hex & Hlen & Hshape).
      rewrite Hex. exists r, w', (Some x :: answers).
      split; [reflexivity | ]. split; [simpl; lia | ].
      destruct Hshape as [(fails & -> & ->) | (fails & -> & Hn & ->)].
      * left. exists (x :: fails). auto.
      * right. exists (x :: fails). split; [reflexivity | ].
        split; [simpl; lia | ].
        destruct fails as [ | e fails]; [reflexivity | ].
        apply last_nonempty.
    + exists None, w1, [None]. split; [reflexivity | ]. split; [simpl; lia | ].
      left. exists []. auto.
Qed.

Lemma retry_loop_shape (c : Sys error) (n : nat) (w : W) :
  exists r w' answers,
    exec h (retry_loop (S n) c nil_error) w = Some (r, w', map (Ev c) answers) /\
    retry_shape (S n) answers r.
Proof.
  destruct (retry_loop_run c (S n) nil_error w)
    as (r & w' & answers & Hex & Hlen & Hshape).
  exists r, w', answers. split; [exact Hex | ]. split; [exact Hlen | ].
  destruct Hshape as [Hok | (fails & -> & Hn & ->)]; [left; exact Hok | right].
  rewrite length_map in Hn.
  destruct (exists_last (l := fails)) as (fails' & e & ->).
  { intros ->. discriminate Hn. }
  exists fails', e. split; [reflexivity | ].
  split; [rewrite length_map; exact Hn | ].
  rewrite map_app. simpl. apply last_last.
Qed.

End Retry.

(** C3. [Remove] and [MV] always return; they call [os.RemoveAll]
    (resp. [os.Rename]) at most 20 times and nothing else; every call but
    the last failed; when a call succeeds the function returns [nil] at
    once; when none does, exactly 20 calls were made and the result is
    the error of the twentieth. *)
Theorem retry_within_budget :
  forall (W : Type) (h : Handler W) (w : W) (path oldpath newpath : string),
    (exists r w' answers,
        exec h (Remove path) w =
          Some (r, w', map (Ev (os_RemoveAll path)) answers) /\
        retry_shape 20 answers r) /\
    (exists r w' answers,
        exec h (MV oldpath newpath) w =
          Some (r, w', map (Ev (os_Rename oldpath newpath)) answers) /\
        retry_shape 20 answers r).
Proof.
  intros W h w path oldpath newpath. split.
  - unfold Remove. rewrite exec_Remove_loop. apply retry_loop_shape.
  - unfold MV. rewrite exec_MV_loop. apply retry_loop_shape.
Qed.

(** ** Which calls a program can make *)

Lemma only_bind (P : CallPred) {A B : Type} (m : Prog A) (f : A -> Prog B) :
  only P m -> (forall a, only P (f a)) -> only P (bind m f).
Proof.
  intros Hm Hf. induction Hm as [a | X c k Hc Hk IH | ]; simpl.
  - apply Hf.
  - apply only_Vis; [exact Hc | exact IH].
  - apply only_Spin.
Qed.

Lemma only_call (P : CallPred) {X : Type} (c : Sys X) :
  P X c = true -> only P (call c).
Proof. intros Hc. apply only_Vis; [exact Hc | intros x; apply only_Ret]. Qed.

Lemma only_trace (P : CallPred) {W A : Type} (h : Handler W) (m : Prog A) :
  only P m ->
  forall w a w' tr, exec h m w = Some (a, w', tr) ->
                    forallb (on_call P) tr = true.
Proof.
  intros Hm. induction Hm as [a0 | X c k Hc Hk IH | ]; intros w a w' tr Hex;
    simpl in Hex.
  - injection Hex as <- <- <-. reflexivity.
  - destruct (h X c w) as [x w1].
    destruct (exec h (k x) w1) as [[[a1 w2] tr1] | ] eqn:Hk1; [ | discriminate].
    injection Hex as <- <- <-. simpl. rewrite Hc. simpl.
    exact (IH x w1 a1 w2 tr1 Hk1).
  - discriminate.
Qed.

Lemma only_MkdirAll_rec (fuel : nat) (path : string) (perm : FileMode) :
  only ensure_call (MkdirAll_rec fuel path perm).
Proof.
  revert path. induction fuel as [ | n IH]; intros path; simpl.
  - apply only_Spin.
  - apply only_Vis; [reflexivity | ]. intros [dir | e]; simpl.
    + destruct (IsDir dir); apply only_Ret.
    + apply (only_bind ensure_call).
      * destruct (1 <? _)%nat; [apply IH | apply only_Ret].
      * intros [e1 | ]; [apply only_Ret | ].
        apply only_Vis; [reflexivity | ]. intros [e2 | ]; simpl.
        -- apply only_Vis; [reflexivity | ]. intros [dir | e3]; simpl;
             [destruct (IsDir dir) | ]; apply only_Ret.
        -- apply only_Vis; [reflexivity | ]. intros [e3 | ]; apply only_Ret.
Qed.

Lemma only_Ensure (path : string) (perm : FileMode) :
  only ensure_call (Ensure path perm).
Proof.
  unfold Ensure. apply (only_bind ensure_call).
  - unfold IsExists. apply (only_bind ensure_call).
    + apply only_call. reflexivity.
    + intros [fi | e]; [apply only_Ret | ].
      destruct (os_IsNotExist (Some e)); apply only_Ret.
  - intros [ok [e | ]]; [apply only_Ret | ].
    destruct (negb ok); [ | apply only_Ret].
    apply (only_bind ensure_call); [apply only_MkdirAll_rec | ].
    intros [e1 | ]; apply only_Ret.
Qed.

(** ** Directory ensure *)

(** [MkdirAll] never runs out of the recursion bound it starts with. *)
Lemma skip_trailing_le (path : string) (i : nat) : skip_trailing path i <= i.
Proof.
  induction i as [ | i IH]; simpl; [lia | ].
  destruct (sep_at path i); lia.
Qed.

Lemma scan_element_le (path : string) (j : nat) : scan_element path j <= j.
Proof.
  induction j as [ | j IH]; simpl; [lia | ].
  destruct (negb (sep_at path j)); lia.
Qed.

Lemma length_substring_le (n m : nat) (s : string) :
  String.length (substring n m s) <= m.
Proof.
  revert n m. induction s as [ | c s IH]; intros n m.
  - destruct n, m; simpl; lia.
  - destruct n as [ | n]; simpl.
    + destruct m as [ | m]; simpl; [lia | ]. specialize (IH 0 m). lia.
    + apply IH.
Qed.

Lemma MkdirAll_rec_returns {W : Type} (h : Handler W) (fuel : nat) :
  forall (path : string) (perm : FileMode) (w : W),
    String.length path < fuel ->
    exists r w' tr, exec h (MkdirAll_rec fuel path perm) w = Some (r, w', tr).
Proof.
  induction fuel as [ | n IH]; intros path perm w Hlen; [lia | ].
  cbn [MkdirAll_rec]. rewrite exec_bind, exec_call.
  destruct (h _ (os_Stat path) w) as [[dir | e] w1]; cbn [fst snd].
  - destruct (IsDir dir); simpl; eauto.
  - set (j := scan_element path (skip_trailing path (String.length path))).
    assert (Hj : j <= String.length path).
    { unfold j. etransitivity; [apply scan_element_le | apply skip_trailing_le]. }
    rewrite exec_bind.
    assert (Hparent : exists r w' tr,
               exec h (if (1 <? j)%nat
                       then MkdirAll_rec n (substring 0 (j - 1) path) perm
                       else ret nil_error) w1 = Some (r, w', tr)).
    { destruct (Nat.ltb_spec 1 j) as [H1 | H1]; [ | simpl; eauto].
      apply IH. pose proof (length_substring_le 0 (j - 1) path). lia. }
    destruct Hparent as (r & w2 & tr & ->).
    destruct r as [e1 | ]; [simpl; eauto | ].
    rewrite exec_bind, exec_call.
    destruct (h _ (os_Mkdir path perm) w2) as [[e2 | ] w3]; cbn [fst snd].
    + rewrite exec_bind, exec_call.
      destruct (h _ (os_Lstat path) w3) as [[dir | e3] w4]; cbn [fst snd];
        [destruct (IsDir dir) | ]; simpl; eauto.
    + rewrite exec_bind, exec_call.
      destruct (h _ (os_Chmod path perm) w3) as [[e3 | ] w4]; simpl; eauto.
Qed.

Lemma MkdirAll_returns {W : Type} (h : Handler W) (path : string)
  (perm : FileMode) (w : W) :
  exists r w' tr, exec h (MkdirAll path perm) w = Some (r, w', tr).
Proof. apply MkdirAll_rec_returns. lia. Qed.

(** On an existing non-directory, [MkdirAll] itself answers ENOTDIR with
    the path, after the one stat. *)
Lemma MkdirAll_not_a_directory {W : Type} (h : Handler W) (w w1 : W)
  (F : string) (perm : FileMode) (fi : FileInfo) :
  h _ (os_Stat F) w = (Ok fi, w1) ->
  IsDir fi = false ->
  exec h (MkdirAll F perm) w =
    Some (Some (PathError "mkdir" F ENOTDIR), w1, [Ev (os_Stat F) (Ok fi)]).
Proof.
  intros Hstat Hdir. unfold MkdirAll. simpl. rewrite Hstat. simpl.
  rewrite Hdir. reflexivity.
Qed.

(** C2. On a path that exists and is not a directory, [Ensure] reports
    success: [IsExists] answers "exists" and the creation, which would
    have answered ENOTDIR, is never called. *)
Theorem Ensure_regular_file_succeeds :
  forall (W : Type) (h : Handler W) (w w1 : W) (F : string) (perm : FileMode)
         (fi : FileInfo),
    h _ (os_Stat F) w = (Ok fi, w1) ->
    IsDir fi = false ->
    exec h (Ensure F perm) w = Some (nil_error, w1, [Ev (os_Stat F) (Ok fi)]).
Proof.
  intros W h w w1 F perm fi Hstat _. unfold Ensure, IsExists. simpl.
  rewrite Hstat. reflexivity.
Qed.

Lemma Ensure_regular_file_succeeds_witness :
  let w := SimFS.world [("cfg", SimFS.FileNode 420%Z [Byte.x61])] [] in
  let fi := mkFileInfo "cfg" 1%Z 420%Z false in
  exec SimFS.handler (Ensure "cfg" 493%Z) w =
    Some (nil_error, w, [Ev (os_Stat "cfg") (Ok fi)]) /\
  exec SimFS.handler (MkdirAll "cfg" 493%Z) w =
    Some (Some (PathError "mkdir" "cfg" ENOTDIR), w, [Ev (os_Stat "cfg") (Ok fi)]).
Proof.
  split.
  - apply (Ensure_regular_file_succeeds SimFS.World SimFS.handler); reflexivity.
  - apply (MkdirAll_not_a_directory SimFS.handler); reflexivity.
Defined.

(** ** Rename *)

(** C10. When the ensure step on the parent of [newpath] fails, [Rename]
    returns [nil]; it makes the calls of the ensure step and no more, and
    none of them is a rename. *)
Theorem Rename_hides_ensure_error :
  forall (filepath_Dir : string -> string) (W : Type) (h : Handler W)
         (w w' : W) (oldpath newpath : string) (m : FileMode) (e : err)
         (tr : Trace),
    exec h (Ensure (filepath_Dir newpath) m) w = Some (Some e, w', tr) ->
    exec h (Rename filepath_Dir oldpath newpath m) w = Some (nil_error, w', tr) /\
    forallb (fun ev => negb (on_call is_Rename ev)) tr = true.
Proof.
  intros Dir W h w w' oldpath newpath m e tr Hens. split.
  - unfold Rename. rewrite exec_bind, Hens. simpl. rewrite app_nil_r. reflexivity.
  - pose proof (only_trace ensure_call h _ (only_Ensure (Dir newpath) m)
                  _ _ _ _ Hens) as Hcalls.
    rewrite forallb_forall in Hcalls |- *. intros ev Hin.
    specialize (Hcalls ev Hin). destruct ev as [X c x].
    destruct c; simpl in *; congruence.
Qed.

(** The other branch: once the ensure step succeeds, the result is the
    answer of the one [os.Rename]. *)
Lemma Rename_after_ensure (filepath_Dir : string -> string) {W : Type}
  (h : Handler W) (w w' : W) (oldpath newpath : string) (m : FileMode)
  (tr : Trace) :
  exec h (Ensure (filepath_Dir newpath) m) w = Some (nil_error, w', tr) ->
  exec h (Rename filepath_Dir oldpath newpath m) w =
    Some (fst (h _ (os_Rename oldpath newpath) w'),
          snd (h _ (os_Rename oldpath newpath) w'),
          tr ++ [Ev (os_Rename oldpath newpath)
                   (fst (h _ (os_Rename oldpath newpath) w'))]).
Proof.
  intros Hens. unfold Rename. rewrite exec_bind, Hens.
  cbv iota beta. rewrite exec_call. reflexivity.
Qed.

Lemma Rename_hides_ensure_error_witness :
  let w := SimFS.world [("a.txt", SimFS.FileNode 420%Z [])]
             [SimFS.mkFault SimFS.OpStat "out" 1 EACCES] in
  let e := PathError "stat" "out" EACCES in
  exec SimFS.handler (Rename SimFS.dirname "a.txt" "out/b.txt" 493%Z) w =
    Some (nil_error,
          SimFS.world [("a.txt", SimFS.FileNode 420%Z [])]
            [SimFS.mkFault SimFS.OpStat "out" 0 EACCES],
          [Ev (os_Stat "out") (Err e)]) /\
  forallb (fun ev => negb (on_call is_Rename ev)) [Ev (os_Stat "out") (Err e)]
    = true.
Proof.
  apply (Rename_hides_ensure_error SimFS.dirname SimFS.World SimFS.handler
           _ _ "a.txt" "out/b.txt" 493%Z (PathError "stat" "out" EACCES)).
  reflexivity.
Defined.

(** ** CopyFile *)

(** Errors of the other three steps are returned. *)
Lemma CopyFile_open_error {W : Type} (h : Handler W) (w w1 : W)
  (source dest : string) (m : FileMode) (e : err) :
  h _ (os_Open source) w = (Err e, w1) ->
  exec h (CopyFile source dest m) w =
    Some (Some e, w1, [Ev (os_Open source) (Err e)]).
Proof. intros Hopen. unfold CopyFile. simpl. rewrite Hopen. reflexivity. Qed.

Lemma CopyFile_create_error {W : Type} (h : Handler W) (w w1 w2 : W)
  (source dest : string) (m : FileMode) (sourcefile : File) (e : err) :
  h _ (os_Open source) w = (Ok sourcefile, w1) ->
  h _ (os_Create dest) w1 = (Err e, w2) ->
  exists w' tr, exec h (CopyFile source dest m) w = Some (Some e, w', tr).
Proof.
  intros Hopen Hcreate. unfold CopyFile, defer. simpl.
  rewrite Hopen. simpl. rewrite Hcreate. simpl.
  destruct (h _ (File_Close sourcefile) w2) as [x w3]. simpl. eauto.
Qed.

Lemma CopyFile_chmod_error {W : Type} (h : Handler W) (w w1 w2 w3 w4 : W)
  (source dest : string) (m : FileMode) (sourcefile destfile : File) (n : Z)
  (e : err) :
  m <> 0%Z ->
  h _ (os_Open source) w = (Ok sourcefile, w1) ->
  h _ (os_Create dest) w1 = (Ok destfile, w2) ->
  h _ (io_Copy destfile sourcefile) w2 = ((n, None), w3) ->
  h _ (os_Chmod dest m) w3 = (Some e, w4) ->
  exists w' tr, exec h (CopyFile source dest m) w = Some (Some e, w', tr).
Proof.
  intros Hm Hopen Hcreate Hcopy Hchmod. unfold CopyFile, defer. simpl.
  rewrite Hopen. simpl. rewrite Hcreate. simpl. rewrite Hcopy. simpl.
  destruct (Z.eqb_spec m 0) as [-> | _]; [congruence | ]. simpl.
  rewrite Hchmod. simpl.
  destruct (h _ (File_Close destfile) w4) as [x w5]. simpl.
  destruct (h _ (File_Close sourcefile) w5) as [y w6]. simpl. eauto.
Qed.

(** C1. When the source opens, the destination is created and the byte
    copy fails, [CopyFile] closes both files and returns [nil]: the error
    of [io.Copy] is dropped, and no permission is applied. *)
Theorem CopyFile_drops_copy_error :
  forall (W : Type) (h : Handler W) (w w1 w2 w3 : W) (source dest : string)
         (m : FileMode) (sourcefile destfile : File) (n : Z) (e : err),
    h _ (os_Open source) w = (Ok sourcefile, w1) ->
    h _ (os_Create dest) w1 = (Ok destfile, w2) ->
    h _ (io_Copy destfile sourcefile) w2 = ((n, Some e), w3) ->
    exists w' c1 c2,
      exec h (CopyFile source dest m) w =
        Some (nil_error, w',
              [Ev (os_Open source) (Ok sourcefile);
               Ev (os_Create dest) (Ok destfile);
               Ev (io_Copy destfile sourcefile) (n, Some e);
               Ev (File_Close destfile) c1;
               Ev (File_Close sourcefile) c2]).
Proof.
  intros W h w w1 w2 w3 source dest m sourcefile destfile n e
         Hopen Hcreate Hcopy.
  unfold CopyFile, defer. simpl.
  rewrite Hopen. simpl. rewrite Hcreate. simpl. rewrite Hcopy. simpl.
  destruct (h _ (File_Close destfile) w3) as [c1 w4]. simpl.
  destruct (h _ (File_Close sourcefile) w4) as [c2 w5]. simpl.
  exists w5, c1, c2. reflexivity.
Qed.

Lemma CopyFile_drops_copy_error_witness :
  let w := SimFS.world [("in", SimFS.FileNode 420%Z [Byte.x61; Byte.x62])]
             [SimFS.mkFault SimFS.OpCopy "in" 1 EIO] in
  exists w' c1 c2,
    exec SimFS.handler (CopyFile "in" "out" 420%Z) w =
      Some (nil_error, w',
            [Ev (os_Open "in") (Ok "in");
             Ev (os_Create "out") (Ok "out");
             Ev (io_Copy "out" "in") (0%Z, Some (PathError "read" "in" EIO));
             Ev (File_Close "out") c1;
             Ev (File_Close "in") c2]).
Proof.
  eapply (CopyFile_drops_copy_error SimFS.World SimFS.handler); reflexivity.
Defined.

(** ** Batch helpers *)

Lemma only_EnsureMany (paths : PathAndModes) : only plain_call (EnsureMany paths).
Proof.
  induction paths as [ | r rest IH]; cbn [EnsureMany]; [apply only_Ret | ].
  apply (only_bind plain_call); [apply only_call; reflexivity | ].
  intros s. cbv zeta. destruct (os_IsNotExist (error_of s)).
  - apply (only_bind plain_call); [apply only_call; reflexivity | ].
    intros [e | ]; [apply only_Ret | exact IH].
  - destruct (error_of s); [apply only_Ret | exact IH].
Qed.

Section Batch.

Context {W : Type} (h : Handler W).

Lemma EnsureMany_refines (paths : PathAndModes) (w : W) :
  exec h (EnsureMany paths) w = Some (EnsureMany_spec h paths w).
Proof.
  revert w. induction paths as [ | r rest IH]; intros w; [reflexivity | ].
  cbn [EnsureMany EnsureMany_spec]. unfold ensure_pair_spec.
  rewrite exec_bind, exec_call.
  destruct (h _ (os_Stat (p r)) w) as [[fi | e] w1]; cbn [fst snd error_of].
  - cbn [os_IsNotExist]. rewrite IH.
    destruct (EnsureMany_spec h rest w1) as [[e' w2] tr']. reflexivity.
  - destruct (os_IsNotExist (Some e)).
    + rewrite exec_bind, exec_call.
      destruct (h _ (os_MkdirAll (p r) (mode r)) w1) as [[e' | ] w2];
        cbn [fst snd]; [reflexivity | ].
      rewrite IH. destruct (EnsureMany_spec h rest w2) as [[e' w3] tr'].
      reflexivity.
    + reflexivity.
Qed.

(** Pairs after a failing one change nothing: not the result, not the
    world, not the calls. *)
Lemma EnsureMany_spec_abort (l1 l2 : PathAndModes) (w w' : W) (e : err)
  (tr : Trace) :
  EnsureMany_spec h l1 w = (Some e, w', tr) ->
  EnsureMany_spec h (l1 ++ l2) w = (Some e, w', tr).
Proof.
  revert w tr. induction l1 as [ | r rest IH]; intros w tr Hrun;
    [discriminate Hrun | ].
  cbn [EnsureMany_spec app] in *.
  destruct (ensure_pair_spec h r w) as [[[e1 | ] w1] tr1]; [exact Hrun | ].
  destruct (EnsureMany_spec h rest w1) as [[e2 w2] tr2] eqn:Hrest.
  injection Hrun as -> -> <-.
  rewrite (IH _ _ Hrest). reflexivity.
Qed.

Lemma EnsureMany_abort (l1 l2 : PathAndModes) (w w' : W) (e : err)
  (tr : Trace) :
  exec h (EnsureMany l1) w = Some (Some e, w', tr) ->
  exec h (EnsureMany (l1 ++ l2)) w = Some (Some e, w', tr).
Proof.
  rewrite !EnsureMany_refines. intros Hrun. injection Hrun as Hrun.
  rewrite (EnsureMany_spec_abort _ _ _ _ _ _ Hrun). reflexivity.
Qed.

End Batch.

(** C8. [EnsureMany] is the batch of the specification: per pair one plain
    stat, for an absent path one plain recursive creation, and the first
    pair whose stat or creation fails ends the batch with that error; the
    pairs after it are not attempted, and no other call is ever made. *)
Theorem EnsureMany_first_failure_aborts :
  forall (W : Type) (h : Handler W) (w : W) (paths : PathAndModes),
    exec h (EnsureMany paths) w = Some (EnsureMany_spec h paths w) /\
    only plain_call (EnsureMany paths) /\
    (forall (rest : PathAndModes) (e : err) (w' : W) (tr : Trace),
        exec h (EnsureMany paths) w = Some (Some e, w', tr) ->
        exec h (EnsureMany (paths ++ rest)) w = Some (Some e, w', tr)).
Proof.
  intros W h w paths. split; [apply EnsureMany_refines | ].
  split; [apply only_EnsureMany | ].
  intros rest e w' tr. apply EnsureMany_abort.
Qed.

Lemma EnsureMany_first_failure_aborts_witness :
  let w := SimFS.world [("var", SimFS.DirNode 493%Z)]
             [SimFS.mkFault SimFS.OpMkdirAll "var/run" 1 EACCES] in
  let paths := [mkPathAndMode "var" 493%Z; mkPathAndMode "var/run" 493%Z] in
  let rest := [mkPathAndMode "var/log" 493%Z] in
  let e := PathError "mkdir" "var/run" EACCES in
  let tr := [Ev (os_Stat "var") (Ok (mkFileInfo "var" 4096%Z 493%Z true));
             Ev (os_Stat "var/run") (Err (PathError "stat" "var/run" ENOENT));
             Ev (os_MkdirAll "var/run" 493%Z) (Some e)] in
  SimFS.outcome (exec SimFS.handler (EnsureMany paths) w) = Some (Some e, tr) /\
  SimFS.outcome (exec SimFS.handler (EnsureMany (paths ++ rest)) w) =
    Some (Some e, tr).
Proof.
  cbv zeta. split; [reflexivity | ].
  pose proof (EnsureMany_first_failure_aborts SimFS.World SimFS.handler
                (SimFS.world [("var", SimFS.DirNode 493%Z)]
                   [SimFS.mkFault SimFS.OpMkdirAll "var/run" 1 EACCES])
                [mkPathAndMode "var" 493%Z; mkPathAndMode "var/run" 493%Z])
    as (_ & _ & Habort).
  rewrite (Habort [mkPathAndMode "var/log" 493%Z] _ _ _ eq_refl).
  reflexivity.
Defined.

Section Absent.

Context {W : Type} (h : Handler W).

Lemma AbsentMany_loop_runs (paths : list string) :
  forall (err : error) (w : W),
  exists w' runs,
    exec h (AbsentMany_loop paths err) w =
      Some (last_seen err (map fst runs), w', concat (map snd runs)) /\
    Forall2 Remove_run paths runs.
Proof.
  induction paths as [ | path rest IH]; intros err w.
  - exists w, []. split; [reflexivity | constructor].
  - cbn [AbsentMany_loop]. rewrite exec_bind.
    unfold Remove at 1. rewrite exec_Remove_loop.
    destruct (retry_loop_shape h (os_RemoveAll path) 19 w)
      as (r & w1 & answers & Hex & Hshape).
    change (S 19) with RemoveAttempts in Hex. rewrite Hex.
    destruct r as [e | ].
    + destruct (IH (Some e) w1) as (w' & runs & Hrest & Hall).
      rewrite Hrest.
      exists w', ((Some e, map (Ev (os_RemoveAll path)) answers) :: runs).
      split; [reflexivity | ].
      constructor; [ | exact Hall]. exists answers. auto.
    + destruct (IH err w1) as (w' & runs & Hrest & Hall).
      rewrite Hrest.
      exists w', ((None, map (Ev (os_RemoveAll path)) answers) :: runs).
      split; [reflexivity | ].
      constructor; [ | exact Hall]. exists answers. auto.
Qed.

End Absent.

(** C9, as stated, fails for [EnsureMany]: after a failing pair the later
    pairs are not even checked. *)
Lemma EnsureMany_skips_later_pairs :
  ~ (forall (W : Type) (h : Handler W) (w w' : W) (paths : PathAndModes)
            (r : error) (tr : Trace),
        exec h (EnsureMany paths) w = Some (r, w', tr) ->
        forall q, In q paths -> exists ev, In ev tr /\ stat_path ev = Some (p q)).
Proof.
  intros Hall.
  destruct (Hall SimFS.World SimFS.handler
              (SimFS.world [] [SimFS.mkFault SimFS.OpStat "a" 1 EACCES]) _
              [mkPathAndMode "a" 493%Z; mkPathAndMode "b" 493%Z] _ _ eq_refl
              (mkPathAndMode "b" 493%Z) (or_intror (or_introl eq_refl)))
    as (ev & Hin & Hpath).
  destruct Hin as [<- | []]. discriminate Hpath.
Qed.

(** C9, amended. [AbsentMany] always returns; it runs [Remove] on every
    path in order, whatever the earlier ones returned, and its result is
    the last non-nil result among them ([nil] if there is none).
    [EnsureMany] stops at the first failing pair. *)
Theorem AbsentMany_attempts_every_path :
  forall (W : Type) (h : Handler W) (w : W),
    (forall paths : list string,
        exists w' runs,
          exec h (AbsentMany paths) w =
            Some (last_seen nil_error (map fst runs), w', concat (map snd runs)) /\
          Forall2 Remove_run paths runs) /\
    (forall (l1 l2 : PathAndModes) (e : err) (w' : W) (tr : Trace),
        exec h (EnsureMany l1) w = Some (Some e, w', tr) ->
        exec h (EnsureMany (l1 ++ l2)) w = Some (Some e, w', tr)).
Proof.
  intros W h w. split.
  - intros paths. apply AbsentMany_loop_runs.
  - intros l1 l2 e w' tr. apply EnsureMany_abort.
Qed.

Lemma AbsentMany_attempts_every_path_witness :
  let w := SimFS.world [] [SimFS.mkFault SimFS.OpStat "a" 1 EACCES] in
  let e := PathError "stat" "a" EACCES in
  SimFS.outcome
    (exec SimFS.handler
       (EnsureMany ([mkPathAndMode "a" 493%Z] ++ [mkPathAndMode "b" 493%Z])) w) =
    Some (Some e, [Ev (os_Stat "a") (Err e)]).
Proof.
  cbv zeta.
  rewrite (proj2 (AbsentMany_attempts_every_path SimFS.World SimFS.handler
                    (SimFS.world [] [SimFS.mkFault SimFS.OpStat "a" 1 EACCES]))
             [mkPathAndMode "a" 493%Z] [mkPathAndMode "b" 493%Z] _ _ _ eq_refl).
  reflexivity.
Defined.

(** The batch removal on a file system where the first path stays busy
    for the whole budget: the second path is still removed, and the error
    of the first is what comes back. *)
Example AbsentMany_continues_after_failure :
  let w := SimFS.world [("a", SimFS.DirNode 493%Z); ("b", SimFS.DirNode 493%Z)]
             [SimFS.mkFault SimFS.OpRemoveAll "a" 20 EBUSY] in
  match exec SimFS.handler (AbsentMany ["a"; "b"]) w with
  | Some (r, w', tr) =>
      r = Some (PathError "unlinkat" "a" EBUSY) /\
      SimFS.nodes w' = [("a", SimFS.DirNode 493%Z)] /\
      length tr = 21 /\
      last tr (Ev (os_RemoveAll "") None) = Ev (os_RemoveAll "b") None
  | None => False
  end.
Proof. cbv zeta. vm_compute. repeat split. Qed.

(** ** Recursive copy *)

Section Walk.

Context {W : Type} (h : Handler W).

Lemma exec_Vis_first {A X : Type} (c : Sys X) (k : X -> Prog A) (w w' : W)
  (r : A) (tr : Trace) :
  exec h (Vis c k) w = Some (r, w', tr) ->
  exists x rest, tr = Ev c x :: rest.
Proof.
  simpl. destruct (h X c w) as [x w1].
  destruct (exec h (k x) w1) as [[[a w2] tr1] | ]; [ | discriminate].
  intros Hrun. injection Hrun as <- <- <-. eauto.
Qed.

Lemma CopyFile_first_call (source dest : string) (m : FileMode) (w w' : W)
  (r : error) (tr : Trace) :
  exec h (CopyFile source dest m) w = Some (r, w', tr) ->
  exists x rest, tr = Ev (os_Open source) x :: rest.
Proof. apply exec_Vis_first. Qed.

Lemma PathCopyDir_first_call (fuel : nat) (source dest : string) (w w' : W)
  (r : error) (tr : Trace) :
  exec h (PathCopyDir fuel source dest) w = Some (r, w', tr) ->
  exists x rest, tr = Ev (os_Stat source) x :: rest.
Proof.
  destruct fuel as [ | n]; [discriminate | ]. apply exec_Vis_first.
Qed.

(** The loop runs its body once per listed entry, whatever the bodies
    before returned. *)
Lemma PathCopyDir_loop_segments (fuel : nat) (source dest : string)
  (objects : list FileInfo) :
  forall (err : error) (w w' : W) (r : error) (tr : Trace),
    exec h (PathCopyDir_loop (PathCopyDir fuel) source dest objects err) w
      = Some (r, w', tr) ->
    exists segs,
      tr = concat segs /\ Forall2 (starts_entry source) objects segs.
Proof.
  induction objects as [ | obj rest IH]; intros err w w' r tr Hrun.
  - injection Hrun as <- <- <-. exists []. split; [reflexivity | constructor].
  - cbn [PathCopyDir_loop] in Hrun. cbv zeta in Hrun.
    rewrite exec_bind in Hrun.
    destruct (exec h (if IsDir obj then _ else _) w)
      as [[[err1 w1] tr1] | ] eqn:Hentry; [ | discriminate].
    rewrite exec_bind in Hrun.
    destruct (exec h (report err1) w1) as [[[u w2] tr2] | ]; [ | discriminate].
    destruct (exec h (PathCopyDir_loop _ source dest rest err1) w2)
      as [[[r3 w3] tr3] | ] eqn:Hrest; [ | discriminate].
    injection Hrun as <- <- <-.
    destruct (IH _ _ _ _ _ Hrest) as (segs & -> & Hall).
    exists ((tr1 ++ tr2) :: segs). split.
    + cbn [concat]. rewrite app_assoc. reflexivity.
    + constructor; [ | exact Hall]. unfold starts_entry.
      destruct (IsDir obj).
      * destruct (PathCopyDir_first_call _ _ _ _ _ _ _ Hentry) as (x & l & ->).
        exists x, (l ++ tr2). reflexivity.
      * destruct (CopyFile_first_call _ _ _ _ _ _ _ Hentry) as (x & l & ->).
        exists x, (l ++ tr2). reflexivity.
Qed.

(** The single-file copy always returns. *)
Lemma CopyFile_returns (source dest : string) (m : FileMode) (w : W) :
  exists r w' tr, exec h (CopyFile source dest m) w = Some (r, w', tr).
Proof.
  unfold CopyFile, defer. simpl.
  destruct (h _ (os_Open source) w) as [[sourcefile | e] w1]; simpl; [ | eauto].
  destruct (h _ (os_Create dest) w1) as [[destfile | e] w2]; simpl.
  - destruct (h _ (io_Copy destfile sourcefile) w2) as [[n [e | ]] w3]; simpl.
    + destruct (h _ (File_Close destfile) w3) as [c1 w4]; simpl.
      destruct (h _ (File_Close sourcefile) w4) as [c2 w5]; simpl. eauto.
    + destruct (negb (m =? 0)%Z); simpl.
      * destruct (h _ (os_Chmod dest m) w3) as [[e | ] w4]; simpl;
          destruct (h _ (File_Close destfile) w4) as [c1 w5]; simpl;
          destruct (h _ (File_Close sourcefile) w5) as [c2 w6]; simpl; eauto.
      * destruct (h _ (os_Stat source) w3) as [[si | e] w4]; simpl.
        -- destruct (h _ (os_Chmod dest (Mode si)) w4) as [[e | ] w5]; simpl;
             destruct (h _ (File_Close destfile) w5) as [c1 w6]; simpl;
             destruct (h _ (File_Close sourcefile) w6) as [c2 w7]; simpl; eauto.
        -- destruct (h _ (File_Close destfile) w4) as [c1 w5]; simpl.
           destruct (h _ (File_Close sourcefile) w5) as [c2 w6]; simpl. eauto.
  - destruct (h _ (File_Close sourcefile) w2) as [c2 w3]; simpl. eauto.
Qed.

(** More depth allowance never changes a walk that returned. *)
Lemma PathCopyDir_loop_mono (self1 self2 : string -> string -> Prog error) :
  (forall s d w res, exec h (self1 s d) w = Some res ->
                     exec h (self2 s d) w = Some res) ->
  forall source dest objects err w res,
    exec h (PathCopyDir_loop self1 source dest objects err) w = Some res ->
    exec h (PathCopyDir_loop self2 source dest objects err) w = Some res.
Proof.
  intros Hself source dest objects.
  induction objects as [ | obj rest IH]; intros err w res Hrun; [exact Hrun | ].
  cbn [PathCopyDir_loop] in *. cbv zeta in *.
  rewrite exec_bind in Hrun |- *.
  destruct (IsDir obj).
  - destruct (exec h (self1 _ _) w) as [[[err1 w1] tr1] | ] eqn:H1;
      [ | discriminate].
    rewrite (Hself _ _ _ _ H1).
    rewrite exec_bind in Hrun |- *.
    destruct (exec h (report err1) w1) as [[[u w2] tr2] | ]; [ | discriminate].
    destruct (exec h (PathCopyDir_loop self1 _ _ rest err1) w2)
      as [res1 | ] eqn:H2; [ | discriminate].
    rewrite (IH _ _ _ H2). exact Hrun.
  - destruct (exec h (CopyFile _ _ _) w) as [[[err1 w1] tr1] | ];
      [ | discriminate].
    rewrite exec_bind in Hrun |- *.
    destruct (exec h (report err1) w1) as [[[u w2] tr2] | ]; [ | discriminate].
    destruct (exec h (PathCopyDir_loop self1 _ _ rest err1) w2)
      as [res1 | ] eqn:H2; [ | discriminate].
    rewrite (IH _ _ _ H2). exact Hrun.
Qed.

Lemma PathCopyDir_S (n : nat) (source dest : string) :
  PathCopyDir (S n) source dest =
  (r <- call (os_Stat source) ;;
   match r with
   | Err e => ret (Some e)
   | Ok sourceinfo =>
       err <- call (os_MkdirAll dest (Mode sourceinfo)) ;;
       match err with
       | Some _ => ret err
       | None =>
           d <- call (os_Open source) ;;
           '(objects, err) <- call (File_Readdir (file_of d) (-1)%Z) ;;
           PathCopyDir_loop (PathCopyDir n) source dest objects err
       end
   end).
Proof. reflexivity. Qed.

Lemma PathCopyDir_fuel_mono (fuel : nat) :
  forall source dest w res,
    exec h (PathCopyDir fuel source dest) w = Some res ->
    exec h (PathCopyDir (S fuel) source dest) w = Some res.
Proof.
  induction fuel as [ | n IH]; intros source dest w res Hrun;
    [discriminate Hrun | ].
  rewrite PathCopyDir_S in Hrun |- *.
  rewrite exec_bind, exec_call in Hrun |- *.
  destruct (h _ (os_Stat source) w) as [[si | e] w1]; cbn [fst snd] in *;
    [ | exact Hrun].
  rewrite exec_bind, exec_call in Hrun |- *.
  destruct (h _ (os_MkdirAll dest (Mode si)) w1) as [[e | ] w2];
    cbn [fst snd] in *; [exact Hrun | ].
  rewrite exec_bind, exec_call in Hrun |- *.
  destruct (h _ (os_Open source) w2) as [d w3]; cbn [fst snd] in *.
  rewrite exec_bind, exec_call in Hrun |- *.
  destruct (h _ (File_Readdir (file_of d) (-1)%Z) w3) as [[objects e0] w4];
    cbn [fst snd] in *.
  destruct (exec h (PathCopyDir_loop (PathCopyDir n) _ _ objects e0) w4)
    as [res1 | ] eqn:Hloop; [ | discriminate].
  rewrite (PathCopyDir_loop_mono (PathCopyDir n) (PathCopyDir (S n)) IH
             _ _ _ _ _ _ Hloop).
  exact Hrun.
Qed.

Lemma report_returns (err : error) (w : W) :
  exists w' tr, exec h (report err) w = Some (tt, w', tr).
Proof.
  destruct err as [e | ]; simpl; [ | eauto].
  destruct (h _ (fmt_Println (Some e)) w) as [[] w1]. eauto.
Qed.

(** When the walk of every listed sub-directory returns, with an error or
    without, the loop returns, and it has run its body once per listed
    entry, whatever the bodies before returned. *)
Lemma PathCopyDir_loop_returns (fuel : nat) (source dest : string)
  (objects : list FileInfo) :
  (forall obj w0,
      In obj objects -> IsDir obj = true ->
      exists r w1 tr,
        exec h (PathCopyDir fuel (source ++ "/" ++ Name obj)%string
                  (dest ++ "/" ++ Name obj)%string) w0 = Some (r, w1, tr)) ->
  forall (err : error) (w : W),
  exists r w' segs,
    exec h (PathCopyDir_loop (PathCopyDir fuel) source dest objects err) w
      = Some (r, w', concat segs) /\
    Forall2 (starts_entry source) objects segs.
Proof.
  induction objects as [ | obj rest IH]; intros Hsub err w.
  - exists err, w, []. split; [reflexivity | constructor].
  - cbn [PathCopyDir_loop]. cbv zeta. rewrite exec_bind.
    assert (Hentry : exists e1 w1 tr1,
               exec h (if IsDir obj
                       then PathCopyDir fuel (source ++ "/" ++ Name obj)%string
                              (dest ++ "/" ++ Name obj)%string
                       else CopyFile (source ++ "/" ++ Name obj)%string
                              (dest ++ "/" ++ Name obj)%string 0%Z) w
               = Some (e1, w1, tr1) /\
               forall tr2, starts_entry source obj (tr1 ++ tr2)).
    { unfold starts_entry. destruct (IsDir obj) eqn:Hdir.
      - destruct (Hsub obj w (or_introl eq_refl) Hdir) as (e1 & w1 & tr1 & Hrun).
        exists e1, w1, tr1. split; [exact Hrun | ]. intros tr2.
        destruct (PathCopyDir_first_call _ _ _ _ _ _ _ Hrun) as (x & l & ->).
        exists x, (l ++ tr2). reflexivity.
      - destruct (CopyFile_returns (source ++ "/" ++ Name obj)%string
                    (dest ++ "/" ++ Name obj)%string 0%Z w)
          as (e1 & w1 & tr1 & Hrun).
        exists e1, w1, tr1. split; [exact Hrun | ]. intros tr2.
        destruct (CopyFile_first_call _ _ _ _ _ _ _ Hrun) as (x & l & ->).
        exists x, (l ++ tr2). reflexivity. }
    destruct Hentry as (e1 & w1 & tr1 & -> & Hstart).
    rewrite exec_bind.
    destruct (report_returns e1 w1) as (w2 & tr2 & ->).
    destruct (IH (fun o w0 Hin => Hsub o w0 (or_intror Hin)) e1 w2)
      as (r & w' & segs & -> & Hall).
    exists r, w', ((tr1 ++ tr2) :: segs). split.
    + cbn [concat]. rewrite app_assoc. reflexivity.
    + constructor; [apply Hstart | exact Hall].
Qed.

End Walk.



(** ** Content identity *)

Section Identity.

Variable md5_Sum : bytes -> bytes.
Context {W : Type} (h : Handler W).

(** [Do] always returns, and what it returns is the error of the stat. *)
Lemma Do_returns_stat_error (m5 : MD5) (path : string) (w : W) :
  exists m5' w' tr,
    exec h (Do md5_Sum m5 path) w =
      Some ((error_of (fst (h _ (os_Stat path) (snd (h _ time_Now w)))), m5'),
            w', tr).
Proof.
  unfold Do, Do_body. simpl.
  destruct (h _ time_Now w) as [start w1]; simpl.
  destruct (h _ (os_Stat path) w1) as [[fi | e] w2]; simpl.
  - destruct (h _ (ioutil_ReadFile path) w2) as [[data [e | ]] w3]; simpl.
    + destruct (h _ (time_Since start) w3) as [d w4]; simpl. eauto.
    + destruct (B m5) as [b | ]; simpl.
      * destruct (h _ (time_Since start) w3) as [d w4]; simpl. eauto.
      * destruct (h _ bufpool_NewBuf w3) as [b w4]; simpl.
        destruct (h _ (time_Since start) w4) as [d w5]; simpl. eauto.
  - destruct (h _ (time_Since start) w2) as [d w3]; simpl. eauto.
Qed.

(** A failed read after a good stat: [nil] comes back, the size is the
    stat's, and digest and buffer are what they were. *)
Lemma Do_read_error (m5 : MD5) (path : string) (w w1 w2 w3 : W)
  (start : Time) (fi : FileInfo) (data : bytes) (e : err) :
  h _ time_Now w = (start, w1) ->
  h _ (os_Stat path) w1 = (Ok fi, w2) ->
  h _ (ioutil_ReadFile path) w2 = ((data, Some e), w3) ->
  exec h (Do md5_Sum m5 path) w =
    Some ((nil_error,
           mkMD5 (fst (h _ (time_Since start) w3)) (Sum m5)
             (uint64 (Size fi)) (B m5)),
          snd (h _ (time_Since start) w3),
          [Ev time_Now start;
           Ev (os_Stat path) (Ok fi);
           Ev (ioutil_ReadFile path) (data, Some e);
           Ev (time_Since start) (fst (h _ (time_Since start) w3))]).
Proof.
  intros Hnow Hstat Hread. unfold Do, Do_body. simpl.
  rewrite Hnow. simpl. rewrite Hstat. simpl. rewrite Hread. simpl.
  destruct (h _ (time_Since start) w3) as [d w4]. reflexivity.
Qed.

(** A good read: the buffer holds exactly the bytes read, the digest is
    theirs, and buffer length and size agree when the stat reported the
    length that was read. *)
Lemma Do_read_ok (m5 : MD5) (path : string) (w w1 w2 w3 : W)
  (start : Time) (fi : FileInfo) (data : bytes) :
  h _ time_Now w = (start, w1) ->
  h _ (os_Stat path) w1 = (Ok fi, w2) ->
  h _ (ioutil_ReadFile path) w2 = ((data, nil_error), w3) ->
  exists d w' tr,
    exec h (Do md5_Sum m5 path) w =
      Some ((nil_error,
             mkMD5 d (md5_Sum data) (uint64 (Size fi)) (Some data)), w', tr) /\
    (Size fi = Z.of_nat (length data) -> (Size fi < 2 ^ 64)%Z ->
     Buf_Len (Some data) = uint64 (Size fi)).
Proof.
  intros Hnow Hstat Hread.
  assert (Hlen : Size fi = Z.of_nat (length data) -> (Size fi < 2 ^ 64)%Z ->
                 Buf_Len (Some data) = uint64 (Size fi)).
  { intros Hsz Hlt. unfold Buf_Len, uint64. rewrite <- Hsz.
    symmetry. apply Z.mod_small. lia. }
  unfold Do, Do_body. simpl.
  rewrite Hnow. simpl. rewrite Hstat. simpl. rewrite Hread. simpl.
  destruct (B m5) as [b | ]; simpl.
  - destruct (h _ (time_Since start) w3) as [d w4]; simpl. eauto.
  - destruct (h _ bufpool_NewBuf w3) as [b w4]; simpl.
    destruct (h _ (time_Since start) w4) as [d w5]; simpl. eauto.
Qed.

End Identity.

(** C5. [Do] always returns and its error is exactly the error of the
    initial stat.  When the stat succeeds and the read fails, the result
    is [nil], the read error appears nowhere, the size is the stat's and
    digest and buffer are left as they were: all zero and absent for a
    fresh record. *)
Theorem Do_swallows_read_error :
  forall (md5_Sum : bytes -> bytes) (W : Type) (h : Handler W) (w : W)
         (m5 : MD5) (path : string),
    (exists m5' w' tr,
        exec h (Do md5_Sum m5 path) w =
          Some ((error_of (fst (h _ (os_Stat path) (snd (h _ time_Now w)))), m5'),
                w', tr)) /\
    (forall (start : Time) (w1 w2 w3 : W) (fi : FileInfo) (data : bytes)
            (e : err),
        h _ time_Now w = (start, w1) ->
        h _ (os_Stat path) w1 = (Ok fi, w2) ->
        h _ (ioutil_ReadFile path) w2 = ((data, Some e), w3) ->
        (exists d w' tr,
            exec h (Do md5_Sum m5 path) w =
              Some ((nil_error, mkMD5 d (Sum m5) (uint64 (Size fi)) (B m5)),
                    w', tr)) /\
        (exists d w' tr,
            exec h (Do md5_Sum MD5_zero path) w =
              Some ((nil_error,
                     mkMD5 d (repeat Byte.x00 16) (uint64 (Size fi)) None),
                    w', tr))).
Proof.
  intros md5_Sum W h w m5 path. split; [apply Do_returns_stat_error | ].
  intros start w1 w2 w3 fi data e Hnow Hstat Hread. split.
  - rewrite (Do_read_error md5_Sum h m5 path _ _ _ _ _ _ _ _ Hnow Hstat Hread).
    eauto.
  - rewrite (Do_read_error md5_Sum h MD5_zero path _ _ _ _ _ _ _ _
               Hnow Hstat Hread).
    eauto.
Qed.

Lemma Do_swallows_read_error_witness :
  let w := SimFS.world [("blob", SimFS.FileNode 420%Z [Byte.x61; Byte.x62; Byte.x63])]
             [SimFS.mkFault SimFS.OpReadFile "blob" 1 EIO] in
  exists d w' tr,
    exec SimFS.handler (Do (fun data => data) MD5_zero "blob") w =
      Some ((nil_error, mkMD5 d (repeat Byte.x00 16) 3%Z None), w', tr).
Proof.
  cbv zeta.
  apply (proj2 (Do_swallows_read_error (fun data => data) SimFS.World
                  SimFS.handler
                  (SimFS.world
                     [("blob", SimFS.FileNode 420%Z [Byte.x61; Byte.x62; Byte.x63])]
                     [SimFS.mkFault SimFS.OpReadFile "blob" 1 EIO])
                  MD5_zero "blob")
           0%Z _ _ _ (mkFileInfo "blob" 3%Z 420%Z false) []
           (PathError "read" "blob" EIO) eq_refl eq_refl eq_refl).
Defined.

(** C5, as stated, fails for a record that was used before: after a good
    stat and a failed read the digest is the one of the earlier
    computation, not zero. *)
Lemma Do_keeps_stale_digest :
  ~ (forall (md5_Sum : bytes -> bytes) (W : Type) (h : Handler W)
            (w w1 w2 w3 w' : W) (m5 m5' : MD5) (path : string) (start : Time)
            (fi : FileInfo) (data : bytes) (e : err) (r : error) (tr : Trace),
        h _ time_Now w = (start, w1) ->
        h _ (os_Stat path) w1 = (Ok fi, w2) ->
        h _ (ioutil_ReadFile path) w2 = ((data, Some e), w3) ->
        exec h (Do md5_Sum m5 path) w = Some ((r, m5'), w', tr) ->
        r = nil_error /\ Sum m5' = repeat Byte.x00 md5_Size).
Proof.
  intros Hall.
  destruct (Hall (fun data => data) SimFS.World SimFS.handler
              (SimFS.world [("blob", SimFS.FileNode 420%Z [Byte.x61])]
                 [SimFS.mkFault SimFS.OpReadFile "blob" 1 EIO])
              _ _ _ _
              (mkMD5 5%Z (repeat Byte.xff md5_Size) 9%Z (Some [Byte.x78]))
              _ "blob" _ _ _ _ _ _
              eq_refl eq_refl eq_refl eq_refl) as [_ Hsum].
  discriminate Hsum.
Qed.

(** C6. After a good stat and a failed read [Do] returns [nil] with the
    size of the stat and the buffer it had before, so a record whose
    buffer length differed from the new size keeps differing from it. *)
Theorem Do_success_without_buffer :
  forall (md5_Sum : bytes -> bytes) (W : Type) (h : Handler W)
         (w w1 w2 w3 : W) (m5 : MD5) (path : string) (start : Time)
         (fi : FileInfo) (data : bytes) (e : err),
    h _ time_Now w = (start, w1) ->
    h _ (os_Stat path) w1 = (Ok fi, w2) ->
    h _ (ioutil_ReadFile path) w2 = ((data, Some e), w3) ->
    Buf_Len (B m5) <> uint64 (Size fi) ->
    exists m5' w' tr,
      exec h (Do md5_Sum m5 path) w = Some ((nil_error, m5'), w', tr) /\
      Buf_Len (B m5') <> Sz m5'.
Proof.
  intros md5_Sum W h w w1 w2 w3 m5 path start fi data e Hnow Hstat Hread Hne.
  rewrite (Do_read_error md5_Sum h m5 path _ _ _ _ _ _ _ _ Hnow Hstat Hread).
  do 3 eexists. split; [reflexivity | exact Hne].
Qed.

Lemma Do_success_without_buffer_witness :
  let w := SimFS.world [("blob", SimFS.FileNode 420%Z [Byte.x61; Byte.x62; Byte.x63])]
             [SimFS.mkFault SimFS.OpReadFile "blob" 1 EIO] in
  exists m5' w' tr,
    exec SimFS.handler (Do (fun data => data) MD5_zero "blob") w =
      Some ((nil_error, m5'), w', tr) /\
    Buf_Len (B m5') <> Sz m5'.
Proof.
  cbv zeta.
  eapply (Do_success_without_buffer (fun data => data) SimFS.World
            SimFS.handler);
    [reflexivity | reflexivity | reflexivity | vm_compute; discriminate].
Defined.

(** The same record and file without the fault: three bytes, size 3. *)
Example Do_on_three_bytes :
  let w := SimFS.world [("blob", SimFS.FileNode 420%Z [Byte.x61; Byte.x62; Byte.x63])]
             [] in
  match exec SimFS.handler (Do (fun data => data) MD5_zero "blob") w with
  | Some ((r, m5'), _, _) =>
      r = nil_error /\ Sz m5' = 3%Z /\
      B m5' = Some [Byte.x61; Byte.x62; Byte.x63]
  | None => False
  end.
Proof. cbv zeta. vm_compute. repeat split. Qed.

(** * Further properties *)

(** ** MkdirAll and Ensure *)

Lemma prefix_refl (s : string) : String.prefix s s = true.
Proof.
  induction s as [ | c s IH]; simpl; [reflexivity | ].
  destruct (ascii_dec c c); [exact IH | congruence].
Qed.

Lemma prefix_substring (k : nat) (s : string) :
  String.prefix (substring 0 k s) s = true.
Proof.
  revert k. induction s as [ | c s IH]; intros k.
  - destruct k; reflexivity.
  - destruct k as [ | k]; simpl; [reflexivity | ].
    destruct (ascii_dec c c); [apply IH | congruence].
Qed.

Lemma prefix_trans (a b c : string) :
  String.prefix a b = true -> String.prefix b c = true ->
  String.prefix a c = true.
Proof.
  revert b c. induction a as [ | x a IH]; intros b c Hab Hbc;
    [destruct c; reflexivity | ].
  destruct b as [ | y b]; [discriminate Hab | ].
  destruct c as [ | z c]; [discriminate Hbc | ].
  simpl in *.
  destruct (ascii_dec x y) as [-> | ]; [ | discriminate Hab].
  destruct (ascii_dec y z) as [-> | ]; [ | discriminate Hbc].
  eapply IH; eassumption.
Qed.

Lemma only_weaken (P Q : CallPred) {A : Type} (m : Prog A) :
  (forall X (c : Sys X), P X c = true -> Q X c = true) ->
  only P m -> only Q m.
Proof.
  intros HPQ Hm. induction Hm as [a | X c k Hc Hk IH | ].
  - apply only_Ret.
  - apply only_Vis; [apply HPQ; exact Hc | exact IH].
  - apply only_Spin.
Qed.

Lemma within_call_weaken (parent path : string) (perm : FileMode) :
  String.prefix parent path = true ->
  forall X (c : Sys X),
    within_call parent perm X c = true -> within_call path perm X c = true.
Proof.
  intros Hpre X c Hc.
  destruct c; simpl in *; try discriminate;
    try (eapply prefix_trans; eassumption).
  - apply andb_true_iff in Hc. destruct Hc as [Hq Hm].
    rewrite Hm, (prefix_trans _ _ _ Hq Hpre). reflexivity.
  - apply andb_true_iff in Hc. destruct Hc as [Hq Hm].
    rewrite Hm, (prefix_trans _ _ _ Hq Hpre). reflexivity.
Qed.

Lemma only_within_MkdirAll_rec (fuel : nat) (path : string) (perm : FileMode) :
  only (within_call path perm) (MkdirAll_rec fuel path perm).
Proof.
  revert path. induction fuel as [ | n IH]; intros path; simpl.
  - apply only_Spin.
  - assert (Hself : String.prefix path path && (perm =? perm)%Z = true).
    { rewrite prefix_refl, Z.eqb_refl. reflexivity. }
    apply only_Vis; [apply prefix_refl | ]. intros [dir | e]; simpl.
    + destruct (IsDir dir); apply only_Ret.
    + apply (only_bind (within_call path perm)).
      * destruct (1 <? _)%nat; [ | apply only_Ret].
        eapply only_weaken; [ | apply IH].
        apply within_call_weaken, prefix_substring.
      * intros [e1 | ]; [apply only_Ret | ].
        apply only_Vis; [exact Hself | ]. intros [e2 | ]; simpl.
        -- apply only_Vis; [apply prefix_refl | ]. intros [dir | e3]; simpl;
             [destruct (IsDir dir) | ]; apply only_Ret.
        -- apply only_Vis; [exact Hself | ]. intros [e3 | ]; apply only_Ret.
Qed.

Lemma only_within_Ensure (path : string) (perm : FileMode) :
  only (within_call path perm) (Ensure path perm).
Proof.
  unfold Ensure. apply (only_bind (within_call path perm)).
  - unfold IsExists. apply (only_bind (within_call path perm)).
    + apply only_call. apply prefix_refl.
    + intros [fi | e]; [apply only_Ret | ].
      destruct (os_IsNotExist (Some e)); apply only_Ret.
  - intros [ok [e | ]]; [apply only_Ret | ].
    destruct (negb ok); [ | apply only_Ret].
    apply (only_bind (within_call path perm));
      [apply only_within_MkdirAll_rec | ].
    intros [e1 | ]; apply only_Ret.
Qed.

Section Mkdir.

Context {W : Type} (h : Handler W).

Lemma MkdirAll_parent_length (path parent : string) :
  MkdirAll_parent path = Some parent ->
  String.length parent < String.length path.
Proof.
  unfold MkdirAll_parent.
  set (j := scan_element path (skip_trailing path (String.length path))).
  assert (Hj : j <= String.length path).
  { unfold j. etransitivity; [apply scan_element_le | apply skip_trailing_le]. }
  destruct (Nat.ltb_spec 1 j) as [H1 | H1]; [ | discriminate].
  intros Hp. injection Hp as <-.
  pose proof (length_substring_le 0 (j - 1) path). lia.
Qed.

(** One step of [MkdirAll_rec], with the parent named. *)
Lemma exec_MkdirAll_rec_S (n : nat) (path : string) (perm : FileMode) (w : W) :
  exec h (MkdirAll_rec (S n) path perm) w =
  exec h
    (r <- call (os_Stat path) ;;
     match r with
     | Ok dir =>
         if IsDir dir then ret nil_error
         else ret (Some (PathError "mkdir" path ENOTDIR))
     | Err _ =>
         err <- match MkdirAll_parent path with
                | Some parent => MkdirAll_rec n parent perm
                | None => ret nil_error
                end ;;
         match err with
         | Some _ => ret err
         | None =>
             err <- call (os_Mkdir path perm) ;;
             match err with
             | Some _ =>
                 r1 <- call (os_Lstat path) ;;
                 match r1 with
                 | Ok dir => if IsDir dir then ret nil_error else ret err
                 | Err _ => ret err
                 end
             | None =>
                 err <- call (os_Chmod path perm) ;;
                 match err with
                 | Some _ => ret err
                 | None => ret nil_error
                 end
             end
         end
     end) w.
Proof.
  cbn [MkdirAll_rec]. rewrite !exec_bind, !exec_call.
  destruct (h _ (os_Stat path) w) as [[dir | e] w1]; cbn [fst snd];
    [reflexivity | ].
  rewrite !exec_bind. unfold MkdirAll_parent.
  destruct (1 <? _)%nat; reflexivity.
Qed.

(** Any bound above the length of the path gives the same run. *)
Lemma MkdirAll_rec_fuel (n : nat) :
  forall (m : nat) (path : string) (perm : FileMode) (w : W),
    String.length path < n -> String.length path < m ->
    exec h (MkdirAll_rec n path perm) w = exec h (MkdirAll_rec m path perm) w.
Proof.
  induction n as [ | n IH]; intros m path perm w Hn Hm; [lia | ].
  destruct m as [ | m]; [lia | ].
  rewrite !exec_MkdirAll_rec_S, !exec_bind.
  destruct (exec h (call (os_Stat path)) w) as [[[[dir | e] w1] tr1] | ];
    [reflexivity | | reflexivity].
  rewrite !exec_bind.
  destruct (MkdirAll_parent path) as [parent | ] eqn:Hparent; [ | reflexivity].
  pose proof (MkdirAll_parent_length _ _ Hparent).
  rewrite (IH m parent perm w1) by lia. reflexivity.
Qed.

(** [MkdirAll] as the source reads: the recursive call is [MkdirAll]. *)
Lemma exec_MkdirAll (path : string) (perm : FileMode) (w : W) :
  exec h (MkdirAll path perm) w =
  exec h
    (r <- call (os_Stat path) ;;
     match r with
     | Ok dir =>
         if IsDir dir then ret nil_error
         else ret (Some (PathError "mkdir" path ENOTDIR))
     | Err _ =>
         err <- match MkdirAll_parent path with
                | Some parent => MkdirAll parent perm
                | None => ret nil_error
                end ;;
         match err with
         | Some _ => ret err
         | None =>
             err <- call (os_Mkdir path perm) ;;
             match err with
             | Some _ =>
                 r1 <- call (os_Lstat path) ;;
                 match r1 with
                 | Ok dir => if IsDir dir then ret nil_error else ret err
                 | Err _ => ret err
                 end
             | None =>
                 err <- call (os_Chmod path perm) ;;
                 match err with
                 | Some _ => ret err
                 | None => ret nil_error
                 end
             end
         end
     end) w.
Proof.
  unfold MkdirAll at 1. rewrite exec_MkdirAll_rec_S, !exec_bind.
  destruct (exec h (call (os_Stat path)) w) as [[[[dir | e] w1] tr1] | ];
    [reflexivity | | reflexivity].
  rewrite !exec_bind.
  destruct (MkdirAll_parent path) as [parent | ] eqn:Hparent; [ | reflexivity].
  pose proof (MkdirAll_parent_length _ _ Hparent).
  unfold MkdirAll.
  rewrite (MkdirAll_rec_fuel (String.length path) (S (String.length parent))
             parent perm w1) by lia.
  reflexivity.
Qed.

End Mkdir.

(** [Ensure] and [MkdirAll] always return: the recursion of [MkdirAll] is
    on a strictly shorter prefix of the path, so the bound it starts with
    is never used up. *)
Theorem Ensure_always_returns :
  forall (W : Type) (h : Handler W) (path : string) (perm : FileMode) (w : W),
    (exists r w' tr, exec h (MkdirAll path perm) w = Some (r, w', tr)) /\
    (exists r w' tr, exec h (Ensure path perm) w = Some (r, w', tr)).
Proof.
  intros W h path perm w. split; [apply MkdirAll_returns | ].
  unfold Ensure, IsExists. rewrite !exec_bind, exec_call.
  destruct (h _ (os_Stat path) w) as [[fi | e] w1]; cbn [fst snd].
  - simpl. eauto.
  - destruct (os_IsNotExist (Some e)); [ | simpl; eauto].
    cbn [exec ret Monad_Prog negb]. rewrite exec_bind.
    destruct (MkdirAll_returns h path perm w1) as (r & w2 & tr & ->).
    destruct r; simpl; eauto.
Qed.

(** Whatever the file system answers, [Ensure] (and so [MkdirAll]) only
    issues stat, lstat, mkdir and chmod calls, each on a prefix of the
    requested path, and every mkdir and chmod carries the requested mode:
    nothing is removed, renamed, opened or written. *)
Theorem Ensure_stays_within_path :
  forall (W : Type) (h : Handler W) (path : string) (perm : FileMode)
         (w w' : W) (r : error) (tr : Trace),
    (exec h (Ensure path perm) w = Some (r, w', tr) ->
     forallb (within path perm) tr = true) /\
    (exec h (MkdirAll path perm) w = Some (r, w', tr) ->
     forallb (within path perm) tr = true).
Proof.
  intros W h path perm w w' r tr. split; intros Hrun.
  - exact (only_trace _ h _ (only_within_Ensure path perm) _ _ _ _ Hrun).
  - exact (only_trace _ h _ (only_within_MkdirAll_rec _ path perm) _ _ _ _ Hrun).
Qed.

Lemma Ensure_stays_within_path_witness :
  let w := SimFS.world [("srv", SimFS.DirNode 493%Z)] [] in
  forallb (within "srv/www/img" 488%Z)
    [Ev (os_Stat "srv/www/img") (Err (PathError "stat" "srv/www/img" ENOENT));
     Ev (os_Stat "srv/www/img") (Err (PathError "stat" "srv/www/img" ENOENT));
     Ev (os_Stat "srv/www") (Err (PathError "stat" "srv/www" ENOENT));
     Ev (os_Stat "srv") (Ok (mkFileInfo "srv" 4096%Z 493%Z true));
     Ev (os_Mkdir "srv/www" 488%Z) nil_error;
     Ev (os_Chmod "srv/www" 488%Z) nil_error;
     Ev (os_Mkdir "srv/www/img" 488%Z) nil_error;
     Ev (os_Chmod "srv/www/img" 488%Z) nil_error] = true.
Proof.
  cbv zeta.
  refine (proj1 (Ensure_stays_within_path SimFS.World SimFS.handler
                   "srv/www/img" 488%Z
                   (SimFS.world [("srv", SimFS.DirNode 493%Z)] []) _ _ _) _).
  vm_compute. reflexivity.
Defined.

(** [MkdirAll] answers [nil] only on the word of the file system: the
    last call of a successful run is a stat or lstat of the path that
    reported a directory, or the chmod of the path that was accepted. *)
Theorem MkdirAll_success_is_confirmed :
  forall (W : Type) (h : Handler W) (path : string) (perm : FileMode)
         (w w' : W) (tr : Trace),
    exec h (MkdirAll path perm) w = Some (nil_error, w', tr) ->
    exists tr0 ev, tr = tr0 ++ [ev] /\ confirms path perm ev.
Proof.
  intros W h path perm w w' tr Hrun.
  rewrite exec_MkdirAll, exec_bind, exec_call in Hrun.
  destruct (h _ (os_Stat path) w) as [[dir | e] w1]; cbn [fst snd] in Hrun.
  - destruct (IsDir dir) eqn:Hdir; simpl in Hrun; [ | discriminate].
    injection Hrun as <- <-. exists [], (Ev (os_Stat path) (Ok dir)).
    split; [reflexivity | left; eauto].
  - rewrite exec_bind in Hrun.
    destruct (exec h match MkdirAll_parent path with
                     | Some parent => MkdirAll parent perm
                     | None => ret nil_error
                     end w1) as [[[[e1 | ] w2] trp] | ];
      [simpl in Hrun; discriminate | | discriminate].
    rewrite exec_bind, exec_call in Hrun.
    destruct (h _ (os_Mkdir path perm) w2) as [[e2 | ] w3]; cbn [fst snd] in Hrun.
    + rewrite exec_bind, exec_call in Hrun.
      destruct (h _ (os_Lstat path) w3) as [[dir | e3] w4]; cbn [fst snd] in Hrun;
        [ | simpl in Hrun; discriminate].
      destruct (IsDir dir) eqn:Hdir; simpl in Hrun; [ | discriminate].
      injection Hrun as <- <-.
      exists (Ev (os_Stat path) (Err e) :: trp ++ [Ev (os_Mkdir path perm) (Some e2)]),
        (Ev (os_Lstat path) (Ok dir)).
      split; [simpl; rewrite <- app_assoc; reflexivity | right; left; eauto].
    + rewrite exec_bind, exec_call in Hrun.
      destruct (h _ (os_Chmod path perm) w3) as [[e3 | ] w4]; cbn [fst snd] in Hrun;
        simpl in Hrun; [discriminate | ].
      injection Hrun as <- <-.
      exists (Ev (os_Stat path) (Err e) :: trp ++ [Ev (os_Mkdir path perm) nil_error]),
        (Ev (os_Chmod path perm) nil_error).
      split; [simpl; rewrite <- app_assoc; reflexivity | right; right; reflexivity].
Qed.

Lemma MkdirAll_success_is_confirmed_witness :
  exists tr0 ev,
    [Ev (os_Stat "a/b") (Err (PathError "stat" "a/b" ENOENT));
     Ev (os_Stat "a") (Err (PathError "stat" "a" ENOENT));
     Ev (os_Mkdir "a" 493%Z) nil_error;
     Ev (os_Chmod "a" 493%Z) nil_error;
     Ev (os_Mkdir "a/b" 493%Z) nil_error;
     Ev (os_Chmod "a/b" 493%Z) nil_error] = tr0 ++ [ev] /\
    confirms "a/b" 493%Z ev.
Proof.
  refine (MkdirAll_success_is_confirmed SimFS.World SimFS.handler "a/b" 493%Z
            (SimFS.world [] []) _ _ _).
  vm_compute. reflexivity.
Defined.

(** A path component that exists and is not a directory stops [MkdirAll]
    before anything is created: when the path is missing and its parent
    is a regular file, the result is ENOTDIR naming the parent, after two
    stats. *)
Theorem MkdirAll_rejects_file_component :
  forall (W : Type) (h : Handler W) (path parent : string) (perm : FileMode)
         (w w1 w2 : W) (e : err) (fi : FileInfo),
    h _ (os_Stat path) w = (Err e, w1) ->
    MkdirAll_parent path = Some parent ->
    h _ (os_Stat parent) w1 = (Ok fi, w2) ->
    IsDir fi = false ->
    exec h (MkdirAll path perm) w =
      Some (Some (PathError "mkdir" parent ENOTDIR), w2,
            [Ev (os_Stat path) (Err e); Ev (os_Stat parent) (Ok fi)]).
Proof.
  intros W h path parent perm w w1 w2 e fi Hstat Hparent Hpstat Hfile.
  rewrite exec_MkdirAll, exec_bind, exec_call, Hstat. cbn [fst snd].
  rewrite Hparent, exec_bind.
  rewrite (MkdirAll_not_a_directory h w1 w2 parent perm fi Hpstat Hfile).
  reflexivity.
Qed.

Lemma MkdirAll_rejects_file_component_witness :
  let w := SimFS.world [("etc", SimFS.FileNode 420%Z [])] [] in
  exec SimFS.handler (MkdirAll "etc/app/" 493%Z) w =
    Some (Some (PathError "mkdir" "etc" ENOTDIR), w,
          [Ev (os_Stat "etc/app/") (Err (PathError "stat" "etc/app/" ENOENT));
           Ev (os_Stat "etc") (Ok (mkFileInfo "etc" 0%Z 420%Z false))]).
Proof.
  eapply (MkdirAll_rejects_file_component SimFS.World SimFS.handler
            "etc/app/" "etc" 493%Z); reflexivity.
Defined.

(** Creation that loses a race is success: when the parent is a directory,
    the mkdir of the path fails and the lstat that follows reports a
    directory, [MkdirAll] returns [nil] without a chmod. *)
Theorem MkdirAll_tolerates_race :
  forall (W : Type) (h : Handler W) (path parent : string) (perm : FileMode)
         (w w1 w2 w3 w4 : W) (e e2 : err) (pi dir : FileInfo),
    h _ (os_Stat path) w = (Err e, w1) ->
    MkdirAll_parent path = Some parent ->
    h _ (os_Stat parent) w1 = (Ok pi, w2) ->
    IsDir pi = true ->
    h _ (os_Mkdir path perm) w2 = (Some e2, w3) ->
    h _ (os_Lstat path) w3 = (Ok dir, w4) ->
    IsDir dir = true ->
    exec h (MkdirAll path perm) w =
      Some (nil_error, w4,
            [Ev (os_Stat path) (Err e); Ev (os_Stat parent) (Ok pi);
             Ev (os_Mkdir path perm) (Some e2); Ev (os_Lstat path) (Ok dir)]).
Proof.
  intros W h path parent perm w w1 w2 w3 w4 e e2 pi dir
         Hstat Hparent Hpstat Hpdir Hmkdir Hlstat Hdir.
  rewrite exec_MkdirAll, exec_bind, exec_call, Hstat. cbn [fst snd].
  rewrite Hparent, exec_bind.
  rewrite exec_MkdirAll, exec_bind, exec_call, Hpstat. cbn [fst snd].
  rewrite Hpdir. cbn [exec ret Monad_Prog].
  rewrite exec_bind, exec_call, Hmkdir. cbn [fst snd].
  rewrite exec_bind, exec_call, Hlstat. cbn [fst snd].
  rewrite Hdir. reflexivity.
Qed.

Lemma MkdirAll_tolerates_race_witness :
  let w := SimFS.world [("run", SimFS.DirNode 493%Z);
                        ("run/lock", SimFS.DirNode 448%Z)]
             [SimFS.mkFault SimFS.OpStat "run/lock" 1 ENOENT] in
  let w' := SimFS.world [("run", SimFS.DirNode 493%Z);
                         ("run/lock", SimFS.DirNode 448%Z)]
              [SimFS.mkFault SimFS.OpStat "run/lock" 0 ENOENT] in
  exec SimFS.handler (MkdirAll "run/lock" 493%Z) w =
    Some (nil_error, w',
          [Ev (os_Stat "run/lock") (Err (PathError "stat" "run/lock" ENOENT));
           Ev (os_Stat "run") (Ok (mkFileInfo "run" 4096%Z 493%Z true));
           Ev (os_Mkdir "run/lock" 493%Z)
             (Some (PathError "mkdir" "run/lock" EEXIST));
           Ev (os_Lstat "run/lock")
             (Ok (mkFileInfo "lock" 4096%Z 448%Z true))]).
Proof.
  eapply (MkdirAll_tolerates_race SimFS.World SimFS.handler
            "run/lock" "run" 493%Z); reflexivity.
Defined.

(** [Ensure] on a path the stat reports missing is that stat followed by
    [MkdirAll]; any other stat error is returned at once and nothing is
    created. *)
Theorem Ensure_missing_path_runs_MkdirAll :
  forall (W : Type) (h : Handler W) (path : string) (perm : FileMode)
         (w w1 : W) (e : err),
    h _ (os_Stat path) w = (Err e, w1) ->
    (os_IsNotExist (Some e) = true ->
     exec h (Ensure path perm) w =
       match exec h (MkdirAll path perm) w1 with
       | Some (r, w', tr) => Some (r, w', Ev (os_Stat path) (Err e) :: tr)
       | None => None
       end) /\
    (os_IsNotExist (Some e) = false ->
     exec h (Ensure path perm) w =
       Some (Some e, w1, [Ev (os_Stat path) (Err e)])).
Proof.
  intros W h path perm w w1 e Hstat.
  split; intros Hne; unfold Ensure, IsExists;
    rewrite !exec_bind, exec_call, Hstat; cbn [fst snd]; rewrite Hne.
  - cbn [exec ret Monad_Prog negb]. rewrite exec_bind.
    destruct (exec h (MkdirAll path perm) w1) as [[[[e1 | ] w2] tr] | ];
      simpl; try rewrite app_nil_r; reflexivity.
  - reflexivity.
Qed.

Lemma Ensure_missing_path_runs_MkdirAll_witness :
  let w := SimFS.world [] [SimFS.mkFault SimFS.OpStat "mnt/usb" 1 EIO] in
  exec SimFS.handler (Ensure "mnt/usb" 493%Z) w =
    Some (Some (PathError "stat" "mnt/usb" EIO),
          SimFS.world [] [SimFS.mkFault SimFS.OpStat "mnt/usb" 0 EIO],
          [Ev (os_Stat "mnt/usb") (Err (PathError "stat" "mnt/usb" EIO))]) /\
  SimFS.outcome (exec SimFS.handler (Ensure "tmp" 493%Z) (SimFS.world [] [])) =
    Some (nil_error,
          [Ev (os_Stat "tmp") (Err (PathError "stat" "tmp" ENOENT));
           Ev (os_Stat "tmp") (Err (PathError "stat" "tmp" ENOENT));
           Ev (os_Mkdir "tmp" 493%Z) nil_error;
           Ev (os_Chmod "tmp" 493%Z) nil_error]).
Proof.
  cbv zeta. split.
  - apply (proj2 (Ensure_missing_path_runs_MkdirAll SimFS.World SimFS.handler
                    "mnt/usb" 493%Z
                    (SimFS.world [] [SimFS.mkFault SimFS.OpStat "mnt/usb" 1 EIO])
                    (SimFS.world [] [SimFS.mkFault SimFS.OpStat "mnt/usb" 0 EIO])
                    (PathError "stat" "mnt/usb" EIO) eq_refl)).
    reflexivity.
  - rewrite (proj1 (Ensure_missing_path_runs_MkdirAll SimFS.World SimFS.handler
                      "tmp" 493%Z (SimFS.world [] []) (SimFS.world [] [])
                      (PathError "stat" "tmp" ENOENT) eq_refl) eq_refl).
    reflexivity.
Defined.

(** ** Batches *)

Lemma stat_paths_app (tr1 tr2 : Trace) :
  stat_paths (tr1 ++ tr2) = stat_paths tr1 ++ stat_paths tr2.
Proof. apply flat_map_app. Qed.

Lemma ensure_pair_spec_stats {W : Type} (h : Handler W) (r : pathAndMode)
  (w : W) :
  stat_paths (snd (ensure_pair_spec h r w)) = [p r].
Proof.
  unfold ensure_pair_spec.
  destruct (h _ (os_Stat (p r)) w) as [[fi | e] w1]; [reflexivity | ].
  destruct (os_IsNotExist (Some e)); [ | reflexivity].
  destruct (h _ (os_MkdirAll (p r) (mode r)) w1) as [e' w2]. reflexivity.
Qed.

Lemma EnsureMany_spec_stats {W : Type} (h : Handler W) (paths : PathAndModes) :
  forall (w w' : W) (r : error) (tr : Trace),
    EnsureMany_spec h paths w = (r, w', tr) ->
    exists n, stat_paths tr = firstn n (map p paths) /\
              (r = nil_error -> stat_paths tr = map p paths).
Proof.
  induction paths as [ | r0 rest IH]; intros w w' r tr Hrun.
  - injection Hrun as <- <- <-. exists 0. split; reflexivity.
  - cbn [EnsureMany_spec] in Hrun.
    pose proof (ensure_pair_spec_stats h r0 w) as Hpair.
    destruct (ensure_pair_spec h r0 w) as [[[e1 | ] w1] tr1]; cbn [snd] in Hpair.
    + injection Hrun as <- <- <-. exists 1. rewrite Hpair.
      split; [reflexivity | discriminate].
    + destruct (EnsureMany_spec h rest w1) as [[e2 w2] tr2] eqn:Hrest.
      injection Hrun as <- <- <-.
      destruct (IH _ _ _ _ Hrest) as (n & Hn & Hall).
      exists (S n). rewrite stat_paths_app, Hpair. split.
      * simpl. rewrite Hn. reflexivity.
      * intros Hnil. simpl. rewrite (Hall Hnil). reflexivity.
Qed.

(** [EnsureMany] stats the pairs in the order given, once each: the paths
    it stats are an initial segment of the batch, and the whole batch when
    it returns [nil]. *)
Theorem EnsureMany_checks_in_order :
  forall (W : Type) (h : Handler W) (paths : PathAndModes) (w w' : W)
         (r : error) (tr : Trace),
    exec h (EnsureMany paths) w = Some (r, w', tr) ->
    exists n, stat_paths tr = firstn n (map p paths) /\
              (r = nil_error -> stat_paths tr = map p paths).
Proof.
  intros W h paths w w' r tr Hrun. rewrite EnsureMany_refines in Hrun.
  injection Hrun as Hrun. exact (EnsureMany_spec_stats h paths _ _ _ _ Hrun).
Qed.

Lemma EnsureMany_checks_in_order_witness :
  exists n,
    stat_paths
      [Ev (os_Stat "a") (Err (PathError "stat" "a" ENOENT));
       Ev (os_MkdirAll "a" 493%Z) nil_error;
       Ev (os_Stat "a/b") (Err (PathError "stat" "a/b" ENOENT));
       Ev (os_MkdirAll "a/b" 448%Z) nil_error;
       Ev (os_Stat "a") (Ok (mkFileInfo "a" 4096%Z 493%Z true))]
    = firstn n ["a"; "a/b"; "a"] /\
    (nil_error = nil_error ->
     stat_paths
       [Ev (os_Stat "a") (Err (PathError "stat" "a" ENOENT));
        Ev (os_MkdirAll "a" 493%Z) nil_error;
        Ev (os_Stat "a/b") (Err (PathError "stat" "a/b" ENOENT));
        Ev (os_MkdirAll "a/b" 448%Z) nil_error;
        Ev (os_Stat "a") (Ok (mkFileInfo "a" 4096%Z 493%Z true))]
     = ["a"; "a/b"; "a"]).
Proof.
  refine (EnsureMany_checks_in_order SimFS.World SimFS.handler
            (Append (Append (Append NewPathAndModes "a" 493%Z) "a/b" 448%Z)
               "a" 420%Z)
            (SimFS.world [] []) _ _ _ _).
  vm_compute. reflexivity.
Defined.

Lemma last_seen_nil (results : list error) (err : error) :
  last_seen err results = nil_error <->
  err = nil_error /\ Forall (fun e => e = nil_error) results.
Proof.
  revert err. induction results as [ | e results IH]; intros err; simpl.
  - split; [intros ->; split; [reflexivity | constructor] | intros [-> _]; reflexivity].
  - unfold last_seen in *. simpl. rewrite IH. destruct e as [e | ].
    + split; [intros [H _]; discriminate H | intros [_ H]; inversion H; discriminate].
    + split; intros [-> H]; split; try reflexivity.
      * constructor; [reflexivity | exact H].
      * inversion H; assumption.
Qed.

Lemma Remove_run_length (path : string) (run : error * Trace) :
  Remove_run path run -> 1 <= length (snd run) <= 20.
Proof.
  intros (answers & -> & Hlen & Hshape). rewrite length_map.
  split; [ | exact Hlen].
  destruct Hshape as [(fails & -> & _) | (fails & e & _ & -> & _)];
    [rewrite length_app; simpl | ]; lia.
Qed.

Lemma runs_length (paths : list string) (runs : list (error * Trace)) :
  Forall2 Remove_run paths runs ->
  length paths <= length (concat (map snd runs)) <= 20 * length paths.
Proof.
  induction 1 as [ | path run paths runs Hrun _ IH]; simpl; [lia | ].
  rewrite length_app. pose proof (Remove_run_length _ _ Hrun). lia.
Qed.

(** [AbsentMany] returns [nil] exactly when the [Remove] of every path
    returned [nil], and it makes at least one and at most 20 calls per
    path. *)
Theorem AbsentMany_nil_iff_all_removed :
  forall (W : Type) (h : Handler W) (paths : list string) (w : W),
    exists r w' runs,
      exec h (AbsentMany paths) w = Some (r, w', concat (map snd runs)) /\
      Forall2 Remove_run paths runs /\
      (r = nil_error <-> Forall (fun run => fst run = nil_error) runs) /\
      length paths <= length (concat (map snd runs)) <= 20 * length paths.
Proof.
  intros W h paths w.
  destruct (AbsentMany_loop_runs h paths nil_error w) as (w' & runs & Hex & Hall).
  exists (last_seen nil_error (map fst runs)), w', runs.
  split; [exact Hex | ]. split; [exact Hall | ].
  split; [ | exact (runs_length _ _ Hall)].
  rewrite last_seen_nil, Forall_map. tauto.
Qed.

(** ** Files opened and closed *)

Lemma handles_app (tr1 tr2 : Trace) :
  forall opened,
    handles (tr1 ++ tr2) opened =
    match handles tr1 opened with
    | Some opened1 => handles tr2 opened1
    | None => None
    end.
Proof.
  induction tr1 as [ | [X c x] tr1 IH]; intros opened; [reflexivity | ].
  destruct c; simpl; try apply IH.
  - destruct x; apply IH.
  - destruct x; apply IH.
  - destruct opened as [ | g opened]; [reflexivity | ].
    destruct (String.eqb f g); [apply IH | reflexivity].
Qed.

Ltac close_run H :=
  simpl in H; injection H as <- <- <-; intros opened; simpl;
  rewrite ?String.eqb_refl; reflexivity.

Section Handles.

Context {W : Type} (h : Handler W).

Lemma CopyFile_handles (source dest : string) (m : FileMode) (w w' : W)
  (r : error) (tr : Trace) :
  exec h (CopyFile source dest m) w = Some (r, w', tr) ->
  forall opened, handles tr opened = Some opened.
Proof.
  unfold CopyFile, defer. simpl. intros Hrun.
  destruct (h _ (os_Open source) w) as [[sourcefile | e] w1]; simpl in Hrun;
    [ | close_run Hrun].
  destruct (h _ (os_Create dest) w1) as [[destfile | e] w2]; simpl in Hrun.
  - destruct (h _ (io_Copy destfile sourcefile) w2) as [[n [e | ]] w3];
      simpl in Hrun.
    + destruct (h _ (File_Close destfile) w3) as [c1 w4]; simpl in Hrun.
      destruct (h _ (File_Close sourcefile) w4) as [c2 w5]. close_run Hrun.
    + destruct (negb (m =? 0)%Z); simpl in Hrun.
      * destruct (h _ (os_Chmod dest m) w3) as [[e | ] w4]; simpl in Hrun;
          destruct (h _ (File_Close destfile) w4) as [c1 w5]; simpl in Hrun;
          destruct (h _ (File_Close sourcefile) w5) as [c2 w6]; close_run Hrun.
      * destruct (h _ (os_Stat source) w3) as [[si | e] w4]; simpl in Hrun.
        -- destruct (h _ (os_Chmod dest (Mode si)) w4) as [[e | ] w5];
             simpl in Hrun;
             destruct (h _ (File_Close destfile) w5) as [c1 w6]; simpl in Hrun;
             destruct (h _ (File_Close sourcefile) w6) as [c2 w7];
             close_run Hrun.
        -- destruct (h _ (File_Close destfile) w4) as [c1 w5]; simpl in Hrun.
           destruct (h _ (File_Close sourcefile) w5) as [c2 w6]. close_run Hrun.
  - destruct (h _ (File_Close sourcefile) w2) as [c2 w3]. close_run Hrun.
Qed.

Lemma report_handles (err : error) (w w' : W) (u : unit) (tr : Trace) :
  exec h (report err) w = Some (u, w', tr) ->
  forall opened, handles tr opened = Some opened.
Proof.
  destruct err as [e | ]; simpl; intros Hrun.
  - destruct (h _ (fmt_Println (Some e)) w) as [x w1]. close_run Hrun.
  - close_run Hrun.
Qed.

(** A walk only adds to the open files: what it opened for copying is
    closed again, the directories it opened are not. *)
Lemma PathCopyDir_loop_handles (self : string -> string -> Prog error)
  (source dest : string) :
  (forall s d w w' r tr opened,
      exec h (self s d) w = Some (r, w', tr) ->
      exists extra, handles tr opened = Some (extra ++ opened)) ->
  forall objects err w w' r tr opened,
    exec h (PathCopyDir_loop self source dest objects err) w = Some (r, w', tr) ->
    exists extra, handles tr opened = Some (extra ++ opened).
Proof.
  intros Hself objects.
  induction objects as [ | obj rest IH]; intros err w w' r tr opened Hrun.
  - injection Hrun as <- <- <-. exists []. reflexivity.
  - cbn [PathCopyDir_loop] in Hrun. cbv zeta in Hrun.
    rewrite exec_bind in Hrun.
    destruct (exec h (if IsDir obj then _ else _) w)
      as [[[err1 w1] tr1] | ] eqn:Hentry; [ | discriminate].
    rewrite exec_bind in Hrun.
    destruct (exec h (report err1) w1) as [[[u w2] tr2] | ] eqn:Hrep;
      [ | discriminate].
    destruct (exec h (PathCopyDir_loop self source dest rest err1) w2)
      as [[[r3 w3] tr3] | ] eqn:Hrest; [ | discriminate].
    injection Hrun as <- <- <-.
    assert (H1 : exists extra, handles tr1 opened = Some (extra ++ opened)).
    { destruct (IsDir obj).
      - eapply Hself. exact Hentry.
      - exists []. exact (CopyFile_handles _ _ _ _ _ _ _ Hentry opened). }
    destruct H1 as (extra1 & H1).
    destruct (IH _ _ _ _ _ (extra1 ++ opened) Hrest) as (extra3 & H3).
    exists (extra3 ++ extra1).
    rewrite handles_app, H1, handles_app, (report_handles _ _ _ _ _ Hrep), H3.
    rewrite app_assoc. reflexivity.
Qed.

Lemma PathCopyDir_handles (fuel : nat) :
  forall s d w w' r tr opened,
    exec h (PathCopyDir fuel s d) w = Some (r, w', tr) ->
    exists extra, handles tr opened = Some (extra ++ opened).
Proof.
  induction fuel as [ | n IH]; intros s d w w' r tr opened Hrun;
    [discriminate Hrun | ].
  rewrite PathCopyDir_S in Hrun.
  rewrite exec_bind, exec_call in Hrun.
  destruct (h _ (os_Stat s) w) as [[si | e] w1]; cbn [fst snd] in Hrun.
  2: { injection Hrun as <- <- <-. exists []. reflexivity. }
  rewrite exec_bind, exec_call in Hrun.
  destruct (h _ (os_MkdirAll d (Mode si)) w1) as [[e | ] w2];
    cbn [fst snd] in Hrun.
  { injection Hrun as <- <- <-. exists []. reflexivity. }
  rewrite exec_bind, exec_call in Hrun.
  destruct (h _ (os_Open s) w2) as [dir w3]; cbn [fst snd] in Hrun.
  rewrite exec_bind, exec_call in Hrun.
  destruct (h _ (File_Readdir (file_of dir) (-1)%Z) w3) as [[objects e0] w4];
    cbn [fst snd] in Hrun.
  destruct (exec h (PathCopyDir_loop (PathCopyDir n) s d objects e0) w4)
    as [[[r1 w5] tr1] | ] eqn:Hloop; [ | discriminate].
  injection Hrun as <- <- <-.
  destruct dir as [f | e].
  - destruct (PathCopyDir_loop_handles _ s d IH _ _ _ _ _ _ (f :: opened) Hloop)
      as (extra & Hextra).
    exists (extra ++ [f]). simpl. rewrite Hextra, <- app_assoc. reflexivity.
  - destruct (PathCopyDir_loop_handles _ s d IH _ _ _ _ _ _ opened Hloop)
      as (extra & Hextra).
    exists extra. simpl. exact Hextra.
Qed.

End Handles.

(** [CopyFile] always returns, and on every path it has closed, last
    opened first, exactly the files it opened: its trace leaves the open
    files as they were. *)
Theorem CopyFile_closes_what_it_opens :
  forall (W : Type) (h : Handler W) (source dest : string) (m : FileMode)
         (w : W),
    exists r w' tr,
      exec h (CopyFile source dest m) w = Some (r, w', tr) /\
      forall opened, handles tr opened = Some opened.
Proof.
  intros W h source dest m w.
  destruct (CopyFile_returns h source dest m w) as (r & w' & tr & Hrun).
  exists r, w', tr. split; [exact Hrun | ].
  exact (CopyFile_handles h _ _ _ _ _ _ _ Hrun).
Qed.

Lemma readdir_handles_app (tr1 tr2 : Trace) :
  readdir_handles (tr1 ++ tr2) = readdir_handles tr1 ++ readdir_handles tr2.
Proof. apply flat_map_app. Qed.

Ltac plain_run H := simpl in H; injection H as <- <- <-; reflexivity.

Section OpenDirs.

Context {W : Type} (h : Handler W).

Lemma CopyFile_lists_nothing (source dest : string) (m : FileMode) (w w' : W)
  (r : error) (tr : Trace) :
  exec h (CopyFile source dest m) w = Some (r, w', tr) ->
  readdir_handles tr = [].
Proof.
  unfold CopyFile, defer. simpl. intros Hrun.
  destruct (h _ (os_Open source) w) as [[sourcefile | e] w1]; simpl in Hrun;
    [ | plain_run Hrun].
  destruct (h _ (os_Create dest) w1) as [[destfile | e] w2]; simpl in Hrun.
  - destruct (h _ (io_Copy destfile sourcefile) w2) as [[n [e | ]] w3];
      simpl in Hrun.
    + destruct (h _ (File_Close destfile) w3) as [c1 w4]; simpl in Hrun.
      destruct (h _ (File_Close sourcefile) w4) as [c2 w5]. plain_run Hrun.
    + destruct (negb (m =? 0)%Z); simpl in Hrun.
      * destruct (h _ (os_Chmod dest m) w3) as [[e | ] w4]; simpl in Hrun;
          destruct (h _ (File_Close destfile) w4) as [c1 w5]; simpl in Hrun;
          destruct (h _ (File_Close sourcefile) w5) as [c2 w6]; plain_run Hrun.
      * destruct (h _ (os_Stat source) w3) as [[si | e] w4]; simpl in Hrun.
        -- destruct (h _ (os_Chmod dest (Mode si)) w4) as [[e | ] w5];
             simpl in Hrun;
             destruct (h _ (File_Close destfile) w5) as [c1 w6]; simpl in Hrun;
             destruct (h _ (File_Close sourcefile) w6) as [c2 w7];
             plain_run Hrun.
        -- destruct (h _ (File_Close destfile) w4) as [c1 w5]; simpl in Hrun.
           destruct (h _ (File_Close sourcefile) w5) as [c2 w6]. plain_run Hrun.
  - destruct (h _ (File_Close sourcefile) w2) as [c2 w3]. plain_run Hrun.
Qed.

Lemma report_lists_nothing (err : error) (w w' : W) (u : unit) (tr : Trace) :
  exec h (report err) w = Some (u, w', tr) -> readdir_handles tr = [].
Proof.
  destruct err as [e | ]; simpl; intros Hrun.
  - destruct (h _ (fmt_Println (Some e)) w) as [x w1]. plain_run Hrun.
  - plain_run Hrun.
Qed.

(** What a walk leaves open is exactly the directories it listed, the
    one listed last on top. *)
Lemma PathCopyDir_loop_open_dirs (self : string -> string -> Prog error)
  (source dest : string) :
  (forall s d w w' r tr opened,
      exec h (self s d) w = Some (r, w', tr) ->
      handles tr opened = Some (rev (readdir_handles tr) ++ opened)) ->
  forall objects err w w' r tr opened,
    exec h (PathCopyDir_loop self source dest objects err) w = Some (r, w', tr) ->
    handles tr opened = Some (rev (readdir_handles tr) ++ opened).
Proof.
  intros Hself objects.
  induction objects as [ | obj rest IH]; intros err w w' r tr opened Hrun.
  - injection Hrun as <- <- <-. reflexivity.
  - cbn [PathCopyDir_loop] in Hrun. cbv zeta in Hrun.
    rewrite exec_bind in Hrun.
    destruct (exec h (if IsDir obj then _ else _) w)
      as [[[err1 w1] tr1] | ] eqn:Hentry; [ | discriminate].
    rewrite exec_bind in Hrun.
    destruct (exec h (report err1) w1) as [[[u w2] tr2] | ] eqn:Hrep;
      [ | discriminate].
    destruct (exec h (PathCopyDir_loop self source dest rest err1) w2)
      as [[[r3 w3] tr3] | ] eqn:Hrest; [ | discriminate].
    injection Hrun as <- <- <-.
    assert (H1 : handles tr1 opened = Some (rev (readdir_handles tr1) ++ opened)).
    { destruct (IsDir obj).
      - eapply Hself. exact Hentry.
      - rewrite (CopyFile_lists_nothing _ _ _ _ _ _ _ Hentry).
        exact (CopyFile_handles h _ _ _ _ _ _ _ Hentry opened). }
    rewrite handles_app, H1, handles_app, (report_handles h _ _ _ _ _ Hrep).
    rewrite (IH _ _ _ _ _ _ Hrest).
    rewrite !readdir_handles_app, (report_lists_nothing _ _ _ _ _ Hrep).
    cbn [app]. rewrite rev_app_distr, app_assoc. reflexivity.
Qed.

Lemma PathCopyDir_open_dirs (fuel : nat) :
  forall s d w w' r tr opened,
    exec h (PathCopyDir fuel s d) w = Some (r, w', tr) ->
    handles tr opened = Some (rev (readdir_handles tr) ++ opened).
Proof.
  induction fuel as [ | n IH]; intros s d w w' r tr opened Hrun;
    [discriminate Hrun | ].
  rewrite PathCopyDir_S in Hrun.
  rewrite exec_bind, exec_call in Hrun.
  destruct (h _ (os_Stat s) w) as [[si | e] w1]; cbn [fst snd] in Hrun.
  2: { injection Hrun as <- <- <-. reflexivity. }
  rewrite exec_bind, exec_call in Hrun.
  destruct (h _ (os_MkdirAll d (Mode si)) w1) as [[e | ] w2];
    cbn [fst snd] in Hrun.
  { injection Hrun as <- <- <-. reflexivity. }
  rewrite exec_bind, exec_call in Hrun.
  destruct (h _ (os_Open s) w2) as [dir w3]; cbn [fst snd] in Hrun.
  rewrite exec_bind, exec_call in Hrun.
  destruct (h _ (File_Readdir (file_of dir) (-1)%Z) w3) as [[objects e0] w4];
    cbn [fst snd] in Hrun.
  destruct (exec h (PathCopyDir_loop (PathCopyDir n) s d objects e0) w4)
    as [[[r1 w5] tr1] | ] eqn:Hloop; [ | discriminate].
  injection Hrun as <- <- <-.
  destruct dir as [f | e]; simpl.
  - rewrite (PathCopyDir_loop_open_dirs _ s d IH _ _ _ _ _ _ (f :: opened) Hloop).
    rewrite <- app_assoc. reflexivity.
  - exact (PathCopyDir_loop_open_dirs _ s d IH _ _ _ _ _ _ opened Hloop).
Qed.

End OpenDirs.



(** ** Permissions and results of the copies *)

(** After a complete byte copy [CopyFile] sets the mode of the
    destination and returns what that chmod answered: an explicit non-zero
    mode is applied as given, without a stat; mode 0 takes the mode that a
    stat of the source reports, and a failure of that stat is returned. *)
Theorem CopyFile_applies_mode :
  forall (W : Type) (h : Handler W) (source dest : string) (m : FileMode)
         (w w1 w2 w3 : W) (sourcefile destfile : File) (n : Z),
    h _ (os_Open source) w = (Ok sourcefile, w1) ->
    h _ (os_Create dest) w1 = (Ok destfile, w2) ->
    h _ (io_Copy destfile sourcefile) w2 = ((n, nil_error), w3) ->
    (m <> 0%Z ->
     exists w' c1 c2,
       exec h (CopyFile source dest m) w =
         Some (fst (h _ (os_Chmod dest m) w3), w',
               [Ev (os_Open source) (Ok sourcefile);
                Ev (os_Create dest) (Ok destfile);
                Ev (io_Copy destfile sourcefile) (n, nil_error);
                Ev (os_Chmod dest m) (fst (h _ (os_Chmod dest m) w3));
                Ev (File_Close destfile) c1;
                Ev (File_Close sourcefile) c2])) /\
    (m = 0%Z ->
     (forall (si : FileInfo) (w4 : W),
         h _ (os_Stat source) w3 = (Ok si, w4) ->
         exists w' c1 c2,
           exec h (CopyFile source dest m) w =
             Some (fst (h _ (os_Chmod dest (Mode si)) w4), w',
                   [Ev (os_Open source) (Ok sourcefile);
                    Ev (os_Create dest) (Ok destfile);
                    Ev (io_Copy destfile sourcefile) (n, nil_error);
                    Ev (os_Stat source) (Ok si);
                    Ev (os_Chmod dest (Mode si))
                      (fst (h _ (os_Chmod dest (Mode si)) w4));
                    Ev (File_Close destfile) c1;
                    Ev (File_Close sourcefile) c2])) /\
     (forall (e : err) (w4 : W),
         h _ (os_Stat source) w3 = (Err e, w4) ->
         exists w' tr, exec h (CopyFile source dest m) w = Some (Some e, w', tr))).
Proof.
  intros W h source dest m w w1 w2 w3 sourcefile destfile n Hopen Hcreate Hcopy.
  split; [intros Hm | intros ->; split; [intros si w4 Hstat | intros e w4 Hstat]];
    unfold CopyFile, defer; simpl;
    rewrite Hopen; simpl; rewrite Hcreate; simpl; rewrite Hcopy; simpl.
  - destruct (Z.eqb_spec m 0) as [-> | _]; [congruence | ]. simpl.
    destruct (h _ (os_Chmod dest m) w3) as [[e | ] w4]; simpl;
      destruct (h _ (File_Close destfile) w4) as [c1 w5]; simpl;
      destruct (h _ (File_Close sourcefile) w5) as [c2 w6]; simpl; eauto.
  - rewrite Hstat. simpl.
    destruct (h _ (os_Chmod dest (Mode si)) w4) as [[e | ] w5]; simpl;
      destruct (h _ (File_Close destfile) w5) as [c1 w6]; simpl;
      destruct (h _ (File_Close sourcefile) w6) as [c2 w7]; simpl; eauto.
  - rewrite Hstat. simpl.
    destruct (h _ (File_Close destfile) w4) as [c1 w5]; simpl.
    destruct (h _ (File_Close sourcefile) w5) as [c2 w6]; simpl. eauto.
Qed.

Lemma CopyFile_applies_mode_witness :
  let w := SimFS.world [("in", SimFS.FileNode 384%Z [Byte.x61])] [] in
  (exists w',
      exec SimFS.handler (CopyFile "in" "out" 0%Z) w =
        Some (nil_error, w',
              [Ev (os_Open "in") (Ok "in");
               Ev (os_Create "out") (Ok "out");
               Ev (io_Copy "out" "in") (1%Z, nil_error);
               Ev (os_Stat "in") (Ok (mkFileInfo "in" 1%Z 384%Z false));
               Ev (os_Chmod "out" 384%Z) nil_error;
               Ev (File_Close "out") nil_error;
               Ev (File_Close "in") nil_error]) /\
      SimFS.lookup (SimFS.nodes w') "out" = Some (SimFS.FileNode 384%Z [Byte.x61])) /\
  (exists w',
      exec SimFS.handler (CopyFile "in" "out" 420%Z) w =
        Some (nil_error, w',
              [Ev (os_Open "in") (Ok "in");
               Ev (os_Create "out") (Ok "out");
               Ev (io_Copy "out" "in") (1%Z, nil_error);
               Ev (os_Chmod "out" 420%Z) nil_error;
               Ev (File_Close "out") nil_error;
               Ev (File_Close "in") nil_error]) /\
      SimFS.lookup (SimFS.nodes w') "out" = Some (SimFS.FileNode 420%Z [Byte.x61])).
Proof.
  cbv zeta. split.
  - destruct (proj1 (proj2 (CopyFile_applies_mode SimFS.World SimFS.handler
                              "in" "out" 0%Z
                              (SimFS.world [("in", SimFS.FileNode 384%Z [Byte.x61])] [])
                              _ _ _ "in" "out" 1%Z eq_refl eq_refl eq_refl)
                        eq_refl)
                (mkFileInfo "in" 1%Z 384%Z false) _ eq_refl)
      as (w' & c1 & c2 & Hrun).
    eexists. split; [vm_compute; reflexivity | reflexivity].
  - destruct (proj1 (CopyFile_applies_mode SimFS.World SimFS.handler
                       "in" "out" 420%Z
                       (SimFS.world [("in", SimFS.FileNode 384%Z [Byte.x61])] [])
                       _ _ _ "in" "out" 1%Z eq_refl eq_refl eq_refl))
      as (w' & c1 & c2 & Hrun); [discriminate | ].
    eexists. split; [vm_compute; reflexivity | reflexivity].
Defined.

(** ** What the walk returns *)

Section WalkResult.

Context {W : Type} (h : Handler W).

Lemma exec_PathCopyDir_loop_snoc (self : string -> string -> Prog error)
  (source dest : string) (objects : list FileInfo) (obj : FileInfo) :
  forall (err : error) (w : W),
    exec h (PathCopyDir_loop self source dest (objects ++ [obj]) err) w =
    match exec h (PathCopyDir_loop self source dest objects err) w with
    | Some (_, w1, tr1) =>
        match exec h (copy_entry self source dest obj) w1 with
        | Some (e, w2, tr2) =>
            match exec h (report e) w2 with
            | Some (_, w3, tr3) => Some (e, w3, tr1 ++ tr2 ++ tr3)
            | None => None
            end
        | None => None
        end
    | None => None
    end.
Proof.
  induction objects as [ | o rest IH]; intros err w.
  - cbn [app PathCopyDir_loop]. cbv zeta. fold (copy_entry self source dest obj).
    rewrite exec_bind. cbn [exec ret Monad_Prog].
    destruct (exec h (copy_entry self source dest obj) w) as [[[e w2] tr2] | ];
      [ | reflexivity].
    rewrite exec_bind.
    destruct (exec h (report e) w2) as [[[u w3] tr3] | ]; [ | reflexivity].
    cbn [exec ret Monad_Prog app]. rewrite app_nil_r. reflexivity.
  - cbn [app PathCopyDir_loop]. cbv zeta. fold (copy_entry self source dest o).
    rewrite !exec_bind.
    destruct (exec h (copy_entry self source dest o) w) as [[[e1 w1] tr1] | ];
      [ | reflexivity].
    rewrite !exec_bind.
    destruct (exec h (report e1) w1) as [[[u w2] tr2] | ]; [ | reflexivity].
    rewrite IH.
    destruct (exec h (PathCopyDir_loop self source dest rest e1) w2)
      as [[[e3 w3] tr3] | ]; [ | reflexivity].
    destruct (exec h (copy_entry self source dest obj) w3) as [[[e4 w4] tr4] | ];
      [ | reflexivity].
    destruct (exec h (report e4) w4) as [[[u5 w5] tr5] | ]; [ | reflexivity].
    rewrite <- !app_assoc. reflexivity.
Qed.

End WalkResult.

(** The walk returns the error of the entry listed last and of no other,
    and prints it if it is one: the loop over [objects ++ [obj]] is the
    loop over [objects], whose result is dropped, then the copy of [obj],
    then one [fmt.Println] of its result when that is an error; the
    result of the copy of [obj] is returned either way. *)
Theorem PathCopyDir_returns_last_entry :
  forall (W : Type) (h : Handler W) (fuel : nat) (source dest : string)
         (objects : list FileInfo) (obj : FileInfo) (err : error) (w : W),
    exec h (PathCopyDir_loop (PathCopyDir fuel) source dest (objects ++ [obj]) err) w
    = match exec h (PathCopyDir_loop (PathCopyDir fuel) source dest objects err) w with
      | Some (_, w1, tr1) =>
          match exec h (copy_entry (PathCopyDir fuel) source dest obj) w1 with
          | Some (Some e, w2, tr2) =>
              Some (Some e, snd (h _ (fmt_Println (Some e)) w2),
                    tr1 ++ tr2 ++ [Ev (fmt_Println (Some e)) tt])
          | Some (None, w2, tr2) => Some (nil_error, w2, tr1 ++ tr2)
          | None => None
          end
      | None => None
      end.
Proof.
  intros W h fuel source dest objects obj err w.
  rewrite exec_PathCopyDir_loop_snoc.
  destruct (exec h (PathCopyDir_loop _ source dest objects err) w)
    as [[[e1 w1] tr1] | ]; [ | reflexivity].
  destruct (exec h (copy_entry _ source dest obj) w1) as [[[[e | ] w2] tr2] | ];
    [ | | reflexivity].
  - simpl. destruct (h _ (fmt_Println (Some e)) w2) as [[] w3]. reflexivity.
  - simpl. rewrite app_nil_r. reflexivity.
Qed.

(** An error of [os.Open] on the source directory is dropped: the listing
    is asked of the nil file, and when that lists nothing the walk returns
    the error of the listing, after four calls. *)
Theorem PathCopyDir_ignores_open_error :
  forall (W : Type) (h : Handler W) (fuel : nat) (source dest : string)
         (w w1 w2 w3 w4 : W) (sourceinfo : FileInfo) (e : err) (e0 : error),
    h _ (os_Stat source) w = (Ok sourceinfo, w1) ->
    h _ (os_MkdirAll dest (Mode sourceinfo)) w1 = (nil_error, w2) ->
    h _ (os_Open source) w2 = (Err e, w3) ->
    h _ (File_Readdir None (-1)%Z) w3 = (([], e0), w4) ->
    exec h (PathCopyDir (S fuel) source dest) w =
      Some (e0, w4,
            [Ev (os_Stat source) (Ok sourceinfo);
             Ev (os_MkdirAll dest (Mode sourceinfo)) nil_error;
             Ev (os_Open source) (Err e);
             Ev (File_Readdir None (-1)%Z) ([], e0)]).
Proof.
  intros W h fuel source dest w w1 w2 w3 w4 sourceinfo e e0
         Hstat Hmkdir Hopen Hread.
  rewrite PathCopyDir_S.
  rewrite exec_bind, exec_call, Hstat. cbn [fst snd].
  rewrite exec_bind, exec_call, Hmkdir. cbn [fst snd].
  rewrite exec_bind, exec_call, Hopen. cbn [fst snd file_of].
  rewrite exec_bind, exec_call, Hread. reflexivity.
Qed.

Lemma PathCopyDir_ignores_open_error_witness :
  let w := SimFS.world [("src", SimFS.DirNode 493%Z);
                        ("src/a", SimFS.FileNode 420%Z [])]
             [SimFS.mkFault SimFS.OpOpen "src" 1 EACCES] in
  SimFS.outcome (exec SimFS.handler (PathCopyDir 1 "src" "dst") w) =
    Some (Some (ErrorString "invalid argument"),
          [Ev (os_Stat "src") (Ok (mkFileInfo "src" 4096%Z 493%Z true));
           Ev (os_MkdirAll "dst" 493%Z) nil_error;
           Ev (os_Open "src") (Err (PathError "open" "src" EACCES));
           Ev (File_Readdir None (-1)%Z)
             ([], Some (ErrorString "invalid argument"))]).
Proof.
  cbv zeta.
  erewrite (PathCopyDir_ignores_open_error SimFS.World SimFS.handler 0
              "src" "dst"); [ | reflexivity .. ].
  reflexivity.
Defined.

(** ** Rename after a successful ensure *)

(** When the ensure step succeeds, [Rename] makes exactly one rename call,
    as its last call, and returns what that call answered. *)
Theorem Rename_returns_rename_answer :
  forall (filepath_Dir : string -> string) (W : Type) (h : Handler W)
         (w w1 : W) (oldpath newpath : string) (m : FileMode) (tr1 : Trace),
    exec h (Ensure (filepath_Dir newpath) m) w = Some (nil_error, w1, tr1) ->
    exists r w',
      h _ (os_Rename oldpath newpath) w1 = (r, w') /\
      exec h (Rename filepath_Dir oldpath newpath m) w =
        Some (r, w', tr1 ++ [Ev (os_Rename oldpath newpath) r]) /\
      length (filter (on_call is_Rename)
                (tr1 ++ [Ev (os_Rename oldpath newpath) r])) = 1.
Proof.
  intros Dir W h w w1 oldpath newpath m tr1 Hens.
  destruct (h _ (os_Rename oldpath newpath) w1) as [r w'] eqn:Hren.
  exists r, w'. split; [reflexivity | ]. split.
  - rewrite (Rename_after_ensure Dir h _ _ _ _ _ _ Hens), Hren. reflexivity.
  - rewrite filter_app, length_app. simpl.
    pose proof (only_trace ensure_call h _ (only_Ensure (Dir newpath) m)
                  _ _ _ _ Hens) as Hcalls.
    assert (Hnone : filter (on_call is_Rename) tr1 = []).
    { clear Hens. induction tr1 as [ | [X c x] tr1 IH]; [reflexivity | ].
      simpl in Hcalls. apply andb_true_iff in Hcalls. destruct Hcalls as [Hc Htl].
      simpl. destruct c; simpl in *; try discriminate; apply IH; exact Htl. }
    rewrite Hnone. reflexivity.
Qed.

Lemma Rename_returns_rename_answer_witness :
  let w := SimFS.world [("a.txt", SimFS.FileNode 420%Z [Byte.x61])] [] in
  exists r w',
    SimFS.handler _ (os_Rename "a.txt" "out/b.txt")
      (SimFS.world [("a.txt", SimFS.FileNode 420%Z [Byte.x61]);
                    ("out", SimFS.DirNode 493%Z)] []) = (r, w') /\
    exec SimFS.handler (Rename SimFS.dirname "a.txt" "out/b.txt" 493%Z) w =
      Some (r, w',
            [Ev (os_Stat "out") (Err (PathError "stat" "out" ENOENT));
             Ev (os_Stat "out") (Err (PathError "stat" "out" ENOENT));
             Ev (os_Mkdir "out" 493%Z) nil_error;
             Ev (os_Chmod "out" 493%Z) nil_error]
            ++ [Ev (os_Rename "a.txt" "out/b.txt") r]) /\
    length (filter (on_call is_Rename)
              ([Ev (os_Stat "out") (Err (PathError "stat" "out" ENOENT));
                Ev (os_Stat "out") (Err (PathError "stat" "out" ENOENT));
                Ev (os_Mkdir "out" 493%Z) nil_error;
                Ev (os_Chmod "out" 493%Z) nil_error]
               ++ [Ev (os_Rename "a.txt" "out/b.txt") r])) = 1.
Proof.
  cbv zeta.
  apply (Rename_returns_rename_answer SimFS.dirname SimFS.World SimFS.handler
           (SimFS.world [("a.txt", SimFS.FileNode 420%Z [Byte.x61])] [])
           (SimFS.world [("a.txt", SimFS.FileNode 420%Z [Byte.x61]);
                         ("out", SimFS.DirNode 493%Z)] [])
           "a.txt" "out/b.txt" 493%Z).
  reflexivity.
Defined.

(** ** Content identity, the other paths *)

(** Every run of [Do] starts by reading the clock and ends by asking the
    time elapsed since then, and that answer is the latency of the record
    returned, whether the computation succeeded or not. *)
Theorem Do_always_records_latency :
  forall (md5_Sum : bytes -> bytes) (W : Type) (h : Handler W) (w : W)
         (m5 : MD5) (path : string),
    exists r m5' w' start mid d,
      exec h (Do md5_Sum m5 path) w =
        Some ((r, m5'), w',
              Ev time_Now start :: mid ++ [Ev (time_Since start) d]) /\
      Latency m5' = d.
Proof.
  intros md5_Sum W h w m5 path. unfold Do, Do_body. simpl.
  destruct (h _ time_Now w) as [start w1]; simpl.
  destruct (h _ (os_Stat path) w1) as [[fi | e] w2]; simpl.
  - destruct (h _ (ioutil_ReadFile path) w2) as [[data [e | ]] w3]; simpl.
    + destruct (h _ (time_Since start) w3) as [d w4]; simpl.
      do 3 eexists.
      exists start, [Ev (os_Stat path) (Ok fi);
                     Ev (ioutil_ReadFile path) (data, Some e)], d.
      split; reflexivity.
    + destruct (B m5) as [b | ]; simpl.
      * destruct (h _ (time_Since start) w3) as [d w4]; simpl.
        do 3 eexists.
        exists start, [Ev (os_Stat path) (Ok fi);
                       Ev (ioutil_ReadFile path) (data, nil_error)], d.
        split; reflexivity.
      * destruct (h _ bufpool_NewBuf w3) as [b w4]; simpl.
        destruct (h _ (time_Since start) w4) as [d w5]; simpl.
        do 3 eexists.
        exists start, [Ev (os_Stat path) (Ok fi);
                       Ev (ioutil_ReadFile path) (data, nil_error);
                       Ev bufpool_NewBuf b], d.
        split; reflexivity.
  - destruct (h _ (time_Since start) w2) as [d w3]; simpl.
    do 3 eexists. exists start, [Ev (os_Stat path) (Err e)], d.
    split; reflexivity.
Qed.

(** After a good stat and a good read the record holds the digest of the
    bytes read and a buffer with exactly those bytes, whatever the buffer
    held before or the pool handed out; the pool is asked for a buffer
    only when the record has none. *)
Theorem Do_fills_buffer_with_data :
  forall (md5_Sum : bytes -> bytes) (W : Type) (h : Handler W)
         (w w1 w2 w3 : W) (m5 : MD5) (path : string) (start : Time)
         (fi : FileInfo) (data : bytes),
    h _ time_Now w = (start, w1) ->
    h _ (os_Stat path) w1 = (Ok fi, w2) ->
    h _ (ioutil_ReadFile path) w2 = ((data, nil_error), w3) ->
    exists d w' tr,
      exec h (Do md5_Sum m5 path) w =
        Some ((nil_error,
               mkMD5 d (md5_Sum data) (uint64 (Size fi)) (Some data)), w', tr) /\
      length (filter (on_call is_NewBuf) tr) =
        match B m5 with
        | Some _ => 0
        | None => 1
        end.
Proof.
  intros md5_Sum W h w w1 w2 w3 m5 path start fi data Hnow Hstat Hread.
  unfold Do, Do_body. simpl.
  rewrite Hnow. simpl. rewrite Hstat. simpl. rewrite Hread. simpl.
  destruct (B m5) as [b | ]; simpl.
  - destruct (h _ (time_Since start) w3) as [d w4]; simpl.
    do 3 eexists. split; reflexivity.
  - destruct (h _ bufpool_NewBuf w3) as [b w4]; simpl.
    destruct (h _ (time_Since start) w4) as [d w5]; simpl.
    do 3 eexists. split; reflexivity.
Qed.

Lemma Do_fills_buffer_with_data_witness :
  let w := SimFS.mkWorld [("blob", SimFS.FileNode 420%Z [Byte.x61; Byte.x62])]
             [] 7%Z [] [[Byte.x7a; Byte.x7a; Byte.x7a]] in
  let stale := mkMD5 3%Z [Byte.x00] 9%Z (Some [Byte.x78; Byte.x79; Byte.x7a]) in
  (exists d w' tr,
      exec SimFS.handler (Do (fun data => rev data) stale "blob") w =
        Some ((nil_error,
               mkMD5 d [Byte.x62; Byte.x61] 2%Z (Some [Byte.x61; Byte.x62])),
              w', tr) /\
      length (filter (on_call is_NewBuf) tr) = 0) /\
  (exists d w' tr,
      exec SimFS.handler (Do (fun data => rev data) MD5_zero "blob") w =
        Some ((nil_error,
               mkMD5 d [Byte.x62; Byte.x61] 2%Z (Some [Byte.x61; Byte.x62])),
              w', tr) /\
      length (filter (on_call is_NewBuf) tr) = 1).
Proof.
  cbv zeta. split.
  - eapply (Do_fills_buffer_with_data (fun data => rev data) SimFS.World
              SimFS.handler _ _ _ _
              (mkMD5 3%Z [Byte.x00] 9%Z (Some [Byte.x78; Byte.x79; Byte.x7a]))
              "blob" 7%Z (mkFileInfo "blob" 2%Z 420%Z false)
              [Byte.x61; Byte.x62]); reflexivity.
  - eapply (Do_fills_buffer_with_data (fun data => rev data) SimFS.World
              SimFS.handler _ _ _ _ MD5_zero
              "blob" 7%Z (mkFileInfo "blob" 2%Z 420%Z false)
              [Byte.x61; Byte.x62]); reflexivity.
Defined.

(** When the initial stat fails, its error is returned, the file is not
    read, no buffer is requested, and the record keeps digest, size and
    buffer; only the latency is set. *)
Theorem Do_stat_error_leaves_record :
  forall (md5_Sum : bytes -> bytes) (W : Type) (h : Handler W)
         (w w1 w2 : W) (m5 : MD5) (path : string) (start : Time) (e : err),
    h _ time_Now w = (start, w1) ->
    h _ (os_Stat path) w1 = (Err e, w2) ->
    exists d w',
      exec h (Do md5_Sum m5 path) w =
        Some ((Some e, mkMD5 d (Sum m5) (Sz m5) (B m5)), w',
              [Ev time_Now start; Ev (os_Stat path) (Err e);
               Ev (time_Since start) d]).
Proof.
  intros md5_Sum W h w w1 w2 m5 path start e Hnow Hstat.
  unfold Do, Do_body. simpl. rewrite Hnow. simpl. rewrite Hstat. simpl.
  destruct (h _ (time_Since start) w2) as [d w3]; simpl. eauto.
Qed.

Lemma Do_stat_error_leaves_record_witness :
  let stale := mkMD5 3%Z [Byte.x01] 9%Z (Some [Byte.x78]) in
  exists d w',
    exec SimFS.handler (Do (fun data => data) stale "gone") (SimFS.world [] []) =
      Some ((Some (PathError "stat" "gone" ENOENT),
             mkMD5 d [Byte.x01] 9%Z (Some [Byte.x78])), w',
            [Ev time_Now 0%Z;
             Ev (os_Stat "gone") (Err (PathError "stat" "gone" ENOENT));
             Ev (time_Since 0%Z) d]).
Proof.
  cbv zeta.
  eapply (Do_stat_error_leaves_record (fun data => data) SimFS.World
            SimFS.handler); reflexivity.
Defined.

(** ** IsDirEmpty *)

Lemma is_EOF_true (e : error) : is_EOF e = true -> e = Some io_EOF.
Proof.
  destruct e as [[ | | s] | ]; simpl; try discriminate.
  intros Heq. apply String.eqb_eq in Heq. subst s. reflexivity.
Qed.

(** [IsDirEmpty] always returns and closes the directory if it opened it.
    It answers "empty" only when the listing of one entry answered
    [io.EOF], and then without error. *)
Theorem IsDirEmpty_true_only_on_EOF :
  forall (W : Type) (h : Handler W) (name : string) (w : W),
    exists empty e w' tr,
      exec h (IsDirEmpty name) w = Some ((empty, e), w', tr) /\
      (forall opened, handles tr opened = Some opened) /\
      (empty = true ->
       e = nil_error /\
       exists f infos,
         In (Ev (File_Readdir (Some f) 1%Z) (infos, Some io_EOF)) tr).
Proof.
  intros W h name w. unfold IsDirEmpty, defer. simpl.
  destruct (h _ (os_Open name) w) as [[f | e] w1]; simpl.
  - destruct (h _ (File_Readdir (Some f) 1%Z) w1) as [[infos e0] w2] eqn:Hread;
      simpl.
    destruct (is_EOF e0) eqn:Heof; simpl;
      destruct (h _ (File_Close f) w2) as [c w3]; simpl; do 4 eexists;
      (split; [reflexivity | ]);
      (split; [intros opened; simpl; rewrite String.eqb_refl; reflexivity | ]).
    + intros _. split; [reflexivity | ]. exists f, infos.
      rewrite (is_EOF_true _ Heof). right. left. reflexivity.
    + discriminate.
  - do 4 eexists. split; [reflexivity | ].
    split; [intros opened; reflexivity | discriminate].
Qed.

(** What [IsDirEmpty] answers for each answer of the file system: the
    error of a failed open, with nothing else called; otherwise, after
    the listing and the close, "empty" for [io.EOF], and "not empty" with
    the error of the listing (nil when an entry was listed) for anything
    else. *)
Theorem IsDirEmpty_follows_listing :
  forall (W : Type) (h : Handler W) (name : string) (w w1 : W),
    (forall e, h _ (os_Open name) w = (Err e, w1) ->
               exec h (IsDirEmpty name) w =
                 Some ((false, Some e), w1, [Ev (os_Open name) (Err e)])) /\
    (forall f infos e0 w2,
        h _ (os_Open name) w = (Ok f, w1) ->
        h _ (File_Readdir (Some f) 1%Z) w1 = ((infos, e0), w2) ->
        exists c w',
          exec h (IsDirEmpty name) w =
            Some ((if is_EOF e0 then (true, nil_error) else (false, e0)), w',
                  [Ev (os_Open name) (Ok f);
                   Ev (File_Readdir (Some f) 1%Z) (infos, e0);
                   Ev (File_Close f) c])).
Proof.
  intros W h name w w1. split.
  - intros e Hopen. unfold IsDirEmpty. simpl. rewrite Hopen. reflexivity.
  - intros f infos e0 w2 Hopen Hread. unfold IsDirEmpty, defer. simpl.
    rewrite Hopen. simpl. rewrite Hread. simpl.
    destruct (is_EOF e0); simpl;
      destruct (h _ (File_Close f) w2) as [c w3]; simpl; eauto.
Qed.

Lemma IsDirEmpty_follows_listing_witness :
  let w := SimFS.world [("d", SimFS.DirNode 493%Z);
                        ("d/x", SimFS.FileNode 420%Z [])] [] in
  exec SimFS.handler (IsDirEmpty "missing") w =
    Some ((false, Some (PathError "open" "missing" ENOENT)), w,
          [Ev (os_Open "missing") (Err (PathError "open" "missing" ENOENT))]) /\
  exists c w',
    exec SimFS.handler (IsDirEmpty "d") w =
      Some ((false, nil_error), w',
            [Ev (os_Open "d") (Ok "d");
             Ev (File_Readdir (Some "d") 1%Z)
               ([mkFileInfo "x" 0%Z 420%Z false], nil_error);
             Ev (File_Close "d") c]).
Proof.
  cbv zeta. split.
  - apply (proj1 (IsDirEmpty_follows_listing SimFS.World SimFS.handler "missing"
                    (SimFS.world [("d", SimFS.DirNode 493%Z);
                                  ("d/x", SimFS.FileNode 420%Z [])] [])
                    (SimFS.world [("d", SimFS.DirNode 493%Z);
                                  ("d/x", SimFS.FileNode 420%Z [])] []))).
    reflexivity.
  - apply (proj2 (IsDirEmpty_follows_listing SimFS.World SimFS.handler "d"
                    (SimFS.world [("d", SimFS.DirNode 493%Z);
                                  ("d/x", SimFS.FileNode 420%Z [])] [])
                    (SimFS.world [("d", SimFS.DirNode 493%Z);
                                  ("d/x", SimFS.FileNode 420%Z [])] []))
             "d" [mkFileInfo "x" 0%Z 420%Z false] nil_error
             (SimFS.world [("d", SimFS.DirNode 493%Z);
                           ("d/x", SimFS.FileNode 420%Z [])] []));
      reflexivity.
Defined.

(** ** Writers that ensure the directory first *)



(** [CopyFileEnsureDir] is the ensure step followed by [CopyFile]: a
    failed ensure is returned with the source not opened and the
    destination not created; after a successful one the result is that of
    [CopyFile]. *)
Theorem CopyFileEnsureDir_is_ensure_then_copy :
  forall (filepath_Dir : string -> string) (W : Type) (h : Handler W)
         (src dst : string) (fileMode dirMode : FileMode) (w w1 : W)
         (tr1 : Trace),
    (forall e,
        exec h (Ensure (filepath_Dir dst) dirMode) w = Some (Some e, w1, tr1) ->
        exec h (CopyFileEnsureDir filepath_Dir src dst fileMode dirMode) w =
          Some (Some e, w1, tr1)) /\
    (exec h (Ensure (filepath_Dir dst) dirMode) w = Some (nil_error, w1, tr1) ->
     exec h (CopyFileEnsureDir filepath_Dir src dst fileMode dirMode) w =
       match exec h (CopyFile src dst fileMode) w1 with
       | Some (r, w', tr2) => Some (r, w', tr1 ++ tr2)
       | None => None
       end).
Proof.
  intros Dir W h src dst fileMode dirMode w w1 tr1. split.
  - intros e Hens. unfold CopyFileEnsureDir. cbv zeta. rewrite exec_bind, Hens.
    simpl. rewrite app_nil_r. reflexivity.
  - intros Hens. unfold CopyFileEnsureDir. cbv zeta. rewrite exec_bind, Hens.
    cbv iota beta. rewrite exec_bind.
    destruct (exec h (CopyFile src dst fileMode) w1) as [[[[e | ] w2] tr2] | ];
      simpl; rewrite ?app_nil_r; reflexivity.
Qed.

Lemma CopyFileEnsureDir_is_ensure_then_copy_witness :
  let w := SimFS.world [("in", SimFS.FileNode 384%Z [Byte.x61])] [] in
  (let wf := SimFS.world [("in", SimFS.FileNode 384%Z [Byte.x61])]
               [SimFS.mkFault SimFS.OpStat "out" 1 EACCES] in
   SimFS.outcome
     (exec SimFS.handler (CopyFileEnsureDir SimFS.dirname "in" "out/f" 0%Z 493%Z) wf)
   = Some (Some (PathError "stat" "out" EACCES),
           [Ev (os_Stat "out") (Err (PathError "stat" "out" EACCES))])) /\
  exists w',
    exec SimFS.handler (CopyFileEnsureDir SimFS.dirname "in" "out/f" 0%Z 493%Z) w
    = Some (nil_error, w',
            [Ev (os_Stat "out") (Err (PathError "stat" "out" ENOENT));
             Ev (os_Stat "out") (Err (PathError "stat" "out" ENOENT));
             Ev (os_Mkdir "out" 493%Z) nil_error;
             Ev (os_Chmod "out" 493%Z) nil_error]
            ++ [Ev (os_Open "in") (Ok "in");
                Ev (os_Create "out/f") (Ok "out/f");
                Ev (io_Copy "out/f" "in") (1%Z, nil_error);
                Ev (os_Stat "in") (Ok (mkFileInfo "in" 1%Z 384%Z false));
                Ev (os_Chmod "out/f" 384%Z) nil_error;
                Ev (File_Close "out/f") nil_error;
                Ev (File_Close "in") nil_error]) /\
    SimFS.lookup (SimFS.nodes w') "out/f" = Some (SimFS.FileNode 384%Z [Byte.x61]).
Proof.
  cbv zeta. split.
  - erewrite (proj1 (CopyFileEnsureDir_is_ensure_then_copy SimFS.dirname
                       SimFS.World SimFS.handler "in" "out/f" 0%Z 493%Z
                       _ _ _));
      [ | reflexivity].
    reflexivity.
  - eexists.
    erewrite (proj2 (CopyFileEnsureDir_is_ensure_then_copy SimFS.dirname
                       SimFS.World SimFS.handler "in" "out/f" 0%Z 493%Z
                       _ _ _));
      [ | reflexivity].
    split; [vm_compute; reflexivity | reflexivity].
Defined.

(** ** Absolutize *)

Section Abs.

Variable filepath_Abs : string -> result string.

Lemma Absolutize_frame (paths : list nat) :
  forall (heap : Heap) (q : nat),
    ~ In q paths -> snd (Absolutize filepath_Abs paths heap) q = heap q.
Proof.
  induction paths as [ | ptr rest IH]; intros heap q Hq; [reflexivity | ].
  cbn [Absolutize]. destruct (filepath_Abs (heap ptr)) as [v | e]; [ | reflexivity].
  rewrite IH by (intros Hin; apply Hq; right; exact Hin).
  unfold store. destruct (Nat.eqb_spec q ptr) as [-> | _]; [ | reflexivity].
  exfalso. apply Hq. left. reflexivity.
Qed.

Lemma Absolutize_rewrites (paths : list nat) :
  forall (heap : Heap),
    NoDup paths ->
    fst (Absolutize filepath_Abs paths heap) = nil_error ->
    forall q, In q paths ->
              filepath_Abs (heap q) =
                Ok (snd (Absolutize filepath_Abs paths heap) q).
Proof.
  induction paths as [ | ptr rest IH]; intros heap Hnd Hok q Hin; [destruct Hin | ].
  inversion Hnd as [ | ? ? Hnotin Hnd']; subst.
  cbn [Absolutize] in *.
  destruct (filepath_Abs (heap ptr)) as [v | e] eqn:Habs; [ | discriminate Hok].
  destruct Hin as [<- | Hin].
  - rewrite Absolutize_frame by exact Hnotin.
    unfold store. rewrite Nat.eqb_refl. exact Habs.
  - rewrite <- (IH _ Hnd' Hok q Hin). unfold store.
    destruct (Nat.eqb_spec q ptr) as [-> | _]; [contradiction | reflexivity].
Qed.

Lemma Absolutize_app_error (l1 l2 : list nat) (ptr : nat) (e : err) :
  forall (heap heap1 : Heap),
    Absolutize filepath_Abs l1 heap = (nil_error, heap1) ->
    filepath_Abs (heap1 ptr) = Err e ->
    Absolutize filepath_Abs (l1 ++ ptr :: l2) heap = (Some e, heap1).
Proof.
  induction l1 as [ | a l1 IH]; intros heap heap1 Hrun Habs.
  - injection Hrun as <-. cbn [app Absolutize]. rewrite Habs. reflexivity.
  - cbn [app Absolutize] in *.
    destruct (filepath_Abs (heap a)) as [v | e1]; [ | discriminate Hrun].
    exact (IH _ _ Hrun Habs).
Qed.

End Abs.

(** [Absolutize] touches only the strings it was given pointers to, and
    when it returns [nil] for pointers that are all different, every one
    of those strings has been replaced by its absolute form. *)
Theorem Absolutize_rewrites_in_place :
  forall (filepath_Abs : string -> result string) (paths : list nat)
         (heap : Heap),
    (forall q, ~ In q paths ->
               snd (Absolutize filepath_Abs paths heap) q = heap q) /\
    (NoDup paths ->
     fst (Absolutize filepath_Abs paths heap) = nil_error ->
     forall q, In q paths ->
               filepath_Abs (heap q) =
                 Ok (snd (Absolutize filepath_Abs paths heap) q)).
Proof.
  intros Abs paths heap. split.
  - intros q. apply Absolutize_frame.
  - apply Absolutize_rewrites.
Qed.

Lemma Absolutize_rewrites_in_place_witness :
  abs_under_cwd (sample_heap 0) =
    Ok (snd (Absolutize abs_under_cwd [2; 0] sample_heap) 0) /\
  snd (Absolutize abs_under_cwd [2; 0] sample_heap) 0 = "/cwd/a" /\
  snd (Absolutize abs_under_cwd [2; 0] sample_heap) 3 = "z".
Proof.
  split; [ | split].
  - apply (proj2 (Absolutize_rewrites_in_place abs_under_cwd [2; 0] sample_heap)).
    + repeat constructor; simpl; intuition discriminate.
    + reflexivity.
    + simpl. auto.
  - reflexivity.
  - apply (proj1 (Absolutize_rewrites_in_place abs_under_cwd [2; 0] sample_heap)).
    simpl. intuition discriminate.
Defined.

(** [Absolutize] stops at the first path that cannot be made absolute and
    returns that error: the strings before it stay rewritten, the failing
    one and those after it are not touched. *)
Theorem Absolutize_stops_at_first_error :
  forall (filepath_Abs : string -> result string) (l1 l2 : list nat)
         (ptr : nat) (e : err) (heap heap1 : Heap),
    Absolutize filepath_Abs l1 heap = (nil_error, heap1) ->
    filepath_Abs (heap1 ptr) = Err e ->
    Absolutize filepath_Abs (l1 ++ ptr :: l2) heap = (Some e, heap1) /\
    (forall q, ~ In q l1 -> heap1 q = heap q).
Proof.
  intros Abs l1 l2 ptr e heap heap1 Hrun Habs. split.
  - exact (Absolutize_app_error Abs l1 l2 ptr e heap heap1 Hrun Habs).
  - intros q Hq. pose proof (Absolutize_frame Abs l1 heap q Hq) as Hframe.
    rewrite Hrun in Hframe. exact Hframe.
Qed.

Lemma Absolutize_stops_at_first_error_witness :
  fst (Absolutize abs_under_cwd ([0] ++ 1 :: [3]) sample_heap) =
    Some (ErrorString "getwd") /\
  snd (Absolutize abs_under_cwd ([0] ++ 1 :: [3]) sample_heap) 0 = "/cwd/a" /\
  snd (Absolutize abs_under_cwd ([0] ++ 1 :: [3]) sample_heap) 3 = "z".
Proof.
  destruct (Absolutize_stops_at_first_error abs_under_cwd [0] [3] 1
              (ErrorString "getwd") sample_heap
              (store sample_heap 0 "/cwd/a") eq_refl eq_refl) as [Hrun Hframe].
  rewrite Hrun. split; [reflexivity | ]. split; [reflexivity | ].
  cbn [snd]. rewrite (Hframe 3); [reflexivity | ].
  simpl. intuition discriminate.
Defined.

(** ** The mode of what MkdirAll creates *)

Lemma chmod_follows_mkdir_app_le (n : nat) :
  forall tr1 tr2,
    length tr1 <= n ->
    chmod_follows_mkdir tr1 = true ->
    chmod_follows_mkdir (tr1 ++ tr2) = chmod_follows_mkdir tr2.
Proof.
  induction n as [ | n IH]; intros tr1 tr2 Hlen Hchk.
  - destruct tr1; [reflexivity | simpl in Hlen; lia].
  - destruct tr1 as [ | ev rest]; [reflexivity | ].
    simpl in Hlen. cbn [app chmod_follows_mkdir] in *.
    destruct (as_mkdir_ok ev) as [[q m] | ].
    + destruct rest as [ | ev' rest']; [discriminate Hchk | ].
      cbn [app]. destruct (as_chmod ev') as [[q' m'] | ]; [ | discriminate Hchk].
      apply andb_true_iff in Hchk. destruct Hchk as [Hqm Hrest]. rewrite Hqm.
      simpl in Hlen. rewrite (IH rest' tr2) by (lia || exact Hrest). reflexivity.
    + destruct (as_chmod ev); [discriminate Hchk | ].
      apply IH; [lia | exact Hchk].
Qed.

Lemma chmod_follows_mkdir_app (tr1 tr2 : Trace) :
  chmod_follows_mkdir tr1 = true ->
  chmod_follows_mkdir (tr1 ++ tr2) = chmod_follows_mkdir tr2.
Proof. apply (chmod_follows_mkdir_app_le (length tr1)). lia. Qed.

Lemma MkdirAll_rec_chmod {W : Type} (h : Handler W) (n : nat) :
  forall (path : string) (perm : FileMode) (w w' : W) (r : error) (tr : Trace),
    exec h (MkdirAll_rec n path perm) w = Some (r, w', tr) ->
    chmod_follows_mkdir tr = true.
Proof.
  induction n as [ | n IH]; intros path perm w w' r tr Hrun;
    [discriminate Hrun | ].
  rewrite exec_MkdirAll_rec_S, exec_bind, exec_call in Hrun.
  destruct (h _ (os_Stat path) w) as [[dir | e] w1]; cbn [fst snd] in Hrun.
  - destruct (IsDir dir); simpl in Hrun; injection Hrun as <- <- <-; reflexivity.
  - rewrite exec_bind in Hrun.
    destruct (exec h match MkdirAll_parent path with
                     | Some parent => MkdirAll_rec n parent perm
                     | None => ret nil_error
                     end w1) as [[[err w2] trp] | ] eqn:Hparent; [ | discriminate].
    assert (Hp : chmod_follows_mkdir trp = true).
    { destruct (MkdirAll_parent path) as [parent | ].
      - exact (IH _ _ _ _ _ _ Hparent).
      - injection Hparent as <- <- <-. reflexivity. }
    destruct err as [e1 | ].
    + simpl in Hrun. injection Hrun as <- <- <-.
      rewrite app_nil_r. exact Hp.
    + rewrite exec_bind, exec_call in Hrun.
      destruct (h _ (os_Mkdir path perm) w2) as [[e2 | ] w3]; cbn [fst snd] in Hrun.
      * rewrite exec_bind, exec_call in Hrun.
        destruct (h _ (os_Lstat path) w3) as [[dir | e3] w4]; cbn [fst snd] in Hrun;
          [destruct (IsDir dir) | ]; simpl in Hrun; injection Hrun as <- <- <-;
          cbn [app chmod_follows_mkdir as_mkdir_ok as_chmod];
          rewrite (chmod_follows_mkdir_app _ _ Hp); reflexivity.
      * rewrite exec_bind, exec_call in Hrun.
        destruct (h _ (os_Chmod path perm) w3) as [[e3 | ] w4]; cbn [fst snd] in Hrun;
          simpl in Hrun; injection Hrun as <- <- <-;
          cbn [app chmod_follows_mkdir as_mkdir_ok as_chmod];
          rewrite (chmod_follows_mkdir_app _ _ Hp); simpl;
          rewrite String.eqb_refl, Z.eqb_refl; reflexivity.
Qed.

(** [MkdirAll] and [Ensure] set the mode of exactly the directories they
    have just created: each successful mkdir is followed at once by the
    chmod of that path to that mode, and no other chmod is made, so the
    mode of a directory that already existed is never changed. *)
Theorem MkdirAll_chmods_only_what_it_creates :
  forall (W : Type) (h : Handler W) (path : string) (perm : FileMode)
         (w w' : W) (r : error) (tr : Trace),
    (exec h (MkdirAll path perm) w = Some (r, w', tr) ->
     chmod_follows_mkdir tr = true) /\
    (exec h (Ensure path perm) w = Some (r, w', tr) ->
     chmod_follows_mkdir tr = true).
Proof.
  intros W h path perm w w' r tr. split; intros Hrun.
  - exact (MkdirAll_rec_chmod h _ _ _ _ _ _ _ Hrun).
  - unfold Ensure, IsExists in Hrun. rewrite !exec_bind, exec_call in Hrun.
    destruct (h _ (os_Stat path) w) as [[fi | e] w1]; cbn [fst snd] in Hrun.
    + simpl in Hrun. injection Hrun as <- <- <-. reflexivity.
    + destruct (os_IsNotExist (Some e)).
      * cbn [exec ret Monad_Prog negb] in Hrun. rewrite exec_bind in Hrun.
        destruct (exec h (MkdirAll path perm) w1) as [[[e1 w2] tr2] | ] eqn:Hmk;
          [ | discriminate].
        pose proof (MkdirAll_rec_chmod h _ _ _ _ _ _ _ Hmk) as Hchk.
        destruct e1; simpl in Hrun; injection Hrun as <- <- <-;
          rewrite app_nil_r; exact Hchk.
      * simpl in Hrun. injection Hrun as <- <- <-. reflexivity.
Qed.

Lemma MkdirAll_chmods_only_what_it_creates_witness :
  chmod_follows_mkdir
    [Ev (os_Stat "srv/www/img") (Err (PathError "stat" "srv/www/img" ENOENT));
     Ev (os_Stat "srv/www") (Err (PathError "stat" "srv/www" ENOENT));
     Ev (os_Stat "srv") (Ok (mkFileInfo "srv" 4096%Z 493%Z true));
     Ev (os_Mkdir "srv/www" 488%Z) nil_error;
     Ev (os_Chmod "srv/www" 488%Z) nil_error;
     Ev (os_Mkdir "srv/www/img" 488%Z) nil_error;
     Ev (os_Chmod "srv/www/img" 488%Z) nil_error] = true.
Proof.
  refine (proj1 (MkdirAll_chmods_only_what_it_creates SimFS.World SimFS.handler
                   "srv/www/img" 488%Z
                   (SimFS.world [("srv", SimFS.DirNode 493%Z)] []) _ _ _) _).
  vm_compute. reflexivity.
Defined.

(** ** Evaluations on the simulated file system *)

Lemma IsDirEmpty_true_only_on_EOF_witness :
  let w := SimFS.world [("d", SimFS.DirNode 493%Z);
                        ("e", SimFS.DirNode 493%Z);
                        ("e/x", SimFS.FileNode 420%Z [])] [] in
  exists empty e w' tr,
    exec listing_handler (IsDirEmpty "d") w = Some ((empty, e), w', tr) /\
    empty = true /\ e = nil_error /\
    exists f infos, In (Ev (File_Readdir (Some f) 1%Z) (infos, Some io_EOF)) tr.
Proof.
  cbv zeta.
  destruct (IsDirEmpty_true_only_on_EOF SimFS.World listing_handler "d"
              (SimFS.world [("d", SimFS.DirNode 493%Z);
                            ("e", SimFS.DirNode 493%Z);
                            ("e/x", SimFS.FileNode 420%Z [])] []))
    as (empty & e & w' & tr & Hrun & _ & Htrue).
  exists empty, e, w', tr. split; [exact Hrun | ].
  assert (Hempty : empty = true).
  { vm_compute in Hrun. injection Hrun as <- _ _ _. reflexivity. }
  split; [exact Hempty | exact (Htrue Hempty)].
Defined.

Lemma AbsentMany_nil_iff_all_removed_witness :
  let w := SimFS.world [("a", SimFS.DirNode 493%Z); ("b", SimFS.DirNode 493%Z)]
             [SimFS.mkFault SimFS.OpRemoveAll "a" 2 EBUSY] in
  exists w' runs,
    exec SimFS.handler (AbsentMany ["a"; "b"]) w =
      Some (nil_error, w', concat (map snd runs)) /\
    Forall (fun run => fst run = nil_error) runs /\
    length (concat (map snd runs)) = 4.
Proof.
  cbv zeta.
  destruct (AbsentMany_nil_iff_all_removed SimFS.World SimFS.handler ["a"; "b"]
              (SimFS.world [("a", SimFS.DirNode 493%Z); ("b", SimFS.DirNode 493%Z)]
                 [SimFS.mkFault SimFS.OpRemoveAll "a" 2 EBUSY]))
    as (r & w' & runs & Hrun & _ & Hiff & _).
  assert (Hr : r = nil_error /\ length (concat (map snd runs)) = 4).
  { assert (Hex : exists w0 tr0,
               exec SimFS.handler (AbsentMany ["a"; "b"])
                 (SimFS.world
                    [("a", SimFS.DirNode 493%Z); ("b", SimFS.DirNode 493%Z)]
                    [SimFS.mkFault SimFS.OpRemoveAll "a" 2 EBUSY])
               = Some (nil_error, w0, tr0) /\ length tr0 = 4).
    { do 2 eexists. split; [vm_compute; reflexivity | reflexivity]. }
    destruct Hex as (w0 & tr0 & Hex & Hlen0).
    rewrite Hex in Hrun. injection Hrun as <- _ <-. split; [reflexivity | exact Hlen0]. }
  destruct Hr as [-> Hlen].
  exists w', runs. split; [exact Hrun | ].
  split; [exact (proj1 Hiff eq_refl) | exact Hlen].
Defined.

(** ** Release after a computation *)

(** After a good stat and a good read the record can be released: the
    one call [Release] makes hands the pool exactly the buffer that holds
    the bytes read, and the record comes back without buffer and with its
    digest, size and latency as [Do] left them. *)
Theorem Release_after_Do_returns_buffer :
  forall (md5_Sum : bytes -> bytes) (W : Type) (h : Handler W)
         (w w1 w2 w3 : W) (m5 : MD5) (path : string) (start : Time)
         (fi : FileInfo) (data : bytes),
    h _ time_Now w = (start, w1) ->
    h _ (os_Stat path) w1 = (Ok fi, w2) ->
    h _ (ioutil_ReadFile path) w2 = ((data, nil_error), w3) ->
    exists d w' tr,
      exec h (Do md5_Sum m5 path) w =
        Some ((nil_error,
               mkMD5 d (md5_Sum data) (uint64 (Size fi)) (Some data)), w', tr) /\
      exec h (x <- Do md5_Sum m5 path ;; Release (snd x)) w =
        Some (mkMD5 d (md5_Sum data) (uint64 (Size fi)) None,
              snd (h _ (Buf_Release (Some data)) w'),
              tr ++ [Ev (Buf_Release (Some data)) tt]).
Proof.
  intros md5_Sum W h w w1 w2 w3 m5 path start fi data Hnow Hstat Hread.
  destruct (Do_read_ok md5_Sum h m5 path _ _ _ _ _ _ _ Hnow Hstat Hread)
    as (d & w' & tr & Hdo & _).
  exists d, w', tr. split; [exact Hdo | ].
  rewrite exec_bind, Hdo. unfold Release. simpl. unfold Buf, bytes in *.
  destruct (h unit (Buf_Release (Some data)) w') as [[] w4]. reflexivity.
Qed.

Lemma Release_after_Do_returns_buffer_witness :
  let w := SimFS.world [("blob", SimFS.FileNode 420%Z [Byte.x61; Byte.x62])] [] in
  exists d w' tr,
    exec SimFS.handler (Do (fun data => rev data) MD5_zero "blob") w =
      Some ((nil_error,
             mkMD5 d [Byte.x62; Byte.x61] 2%Z (Some [Byte.x61; Byte.x62])),
            w', tr) /\
    exec SimFS.handler
      (x <- Do (fun data => rev data) MD5_zero "blob" ;; Release (snd x)) w =
      Some (mkMD5 d [Byte.x62; Byte.x61] 2%Z None,
            snd (SimFS.handler _ (Buf_Release (Some [Byte.x61; Byte.x62])) w'),
            tr ++ [Ev (Buf_Release (Some [Byte.x61; Byte.x62])) tt]).
Proof.
  cbv zeta.
  eapply (Release_after_Do_returns_buffer (fun data => rev data) SimFS.World
            SimFS.handler _ _ _ _ MD5_zero "blob" 0%Z
            (mkFileInfo "blob" 2%Z 420%Z false) [Byte.x61; Byte.x62]);
    reflexivity.
Defined.
